(** * snagg-bsky-bot: content acquisition and post assembly

    A shallow embedding of the bot's fetch operations and of [Bot.post],
    with the properties stated about them.

    What is embedded.
    - [Unified]: [getPostText.ts] with its two strategies,
      [fetchGeneratedMeme] and [fetchRandomMeme], and the fixed text.
    - [GenerateOnly]: the variant of [getPostText] that only generates.
    - [RandomLink]: the variant of [getPostText] that makes one request to
      [/random] and returns the image's URL and a link.
    - [Bot]: [Bot.post] of [bot.ts], the version that takes a [PostData].
    - [OldSite]: the first [getPostText], which returns a finished embed,
      and the HTML scraper.
    - [Config]: [config.ts].
    - [Run]: [Bot.run] (the version that takes a [PostData]) and the two
      entry scripts.
    The first [Bot.post] uploads its images under [Promise.all], whose
    interleaving the history of a sequential run cannot express; it and the
    [Bot.run] that calls it are not embedded.

    Conventions of the embedding.
    - A JavaScript string is the list of its UTF-16 code units.
    - An optional property is a [js_opt]: [undefined], [null] or a value.
    - [async] code is run sequentially by [await]; a rejected promise is a
      thrown exception.  A computation is a function from the history of
      effects to an outcome (a value or a thrown exception) and the extended
      history.
    - The network and the Bluesky agent are a [World]: what each call
      answers, given the history so far.
    - [console.log] and [console.error] only write to the console and
      return; they are left out of the history. *)

From Stdlib Require Import List NArith String Ascii Bool Lia DecimalString.
Import ListNotations.
Open Scope N_scope.

(** ** JavaScript values *)

Definition jsstring := list N.

Fixpoint js (s : string) : jsstring :=
  match s with
  | EmptyString => []
  | String a s' => N_of_ascii a :: js s'
  end.

(** UTF-16 code units of the code point [v]. *)
Definition utf16 (v : N) : jsstring :=
  if v <? 65536 then [v]
  else [55296 + (v - 65536) / 1024; 56320 + (v - 65536) mod 1024].

(** U+1F525, the fire emoji of the source's string literals. *)
Definition fire : jsstring := utf16 128293.

Definition ArrayBuffer := list Byte.byte.

Inductive js_opt (A : Type) : Type :=
| undefined
| null
| val (a : A).
Arguments undefined {A}.
Arguments null {A}.
Arguments val {A} a.

(** Truthiness of a string: every string but the empty one. *)
Definition str_truthy (s : jsstring) : bool :=
  match s with [] => false | _ :: _ => true end.

(** Truthiness of an optional string. *)
Definition truthy (x : js_opt jsstring) : bool :=
  match x with val s => str_truthy s | _ => false end.

(** [a || b] on optional strings. *)
Definition or_else (a b : js_opt jsstring) : js_opt jsstring :=
  if truthy a then a else b.

(** [a || "literal"]: always a string. *)
Definition or_str (a : js_opt jsstring) (d : jsstring) : jsstring :=
  match a with
  | val (c :: s) => c :: s
  | _ => d
  end.

(** [x?.f] *)
Definition optchain {A B : Type} (x : js_opt A) (f : A -> js_opt B) : js_opt B :=
  match x with val a => f a | _ => undefined end.

(** [`${x}`] for an optional string. *)
Definition String_ (x : js_opt jsstring) : jsstring :=
  match x with
  | undefined => js "undefined"
  | null => js "null"
  | val s => s
  end.

(** [`${n}`] for a non-negative integer. *)
Definition String_N (n : N) : jsstring :=
  js (NilEmpty.string_of_uint (N.to_uint n)).

(** [l.join(sep)] *)
Fixpoint join (sep : jsstring) (l : list jsstring) : jsstring :=
  match l with
  | [] => []
  | [s] => s
  | s :: rest => s ++ sep ++ join sep rest
  end.

(** The code units matched by [\s] in a JavaScript regular expression:
    tab, LF, VT, FF, CR, space, U+00A0, U+1680, U+2000..U+200A, U+2028,
    U+2029, U+202F, U+205F, U+3000, U+FEFF. *)
Definition is_whitespace (c : N) : bool :=
  ((9 <=? c) && (c <=? 13)) || (c =? 32) || (c =? 160) || (c =? 5760)
  || ((8192 <=? c) && (c <=? 8202)) || (c =? 8232) || (c =? 8233)
  || (c =? 8239) || (c =? 8287) || (c =? 12288) || (c =? 65279).

(** [t.replace(/\s+/g, "")] *)
Definition strip_whitespace (t : jsstring) : jsstring :=
  filter (fun c => negb (is_whitespace c)) t.

(** ** Exceptions and outcomes *)

Inductive exn : Type :=
| Error (msg : jsstring)
| TypeError
| URIError
| Rejected (reason : jsstring).

Inductive outcome (A : Type) : Type :=
| Return (a : A)
| Throw (e : exn).
Arguments Return {A} a.
Arguments Throw {A} e.

(** ** The Snagg API payload

    The parsed body of [GET /random], with the properties the bot reads.
    Each may be missing or [null]: the bot does not validate the payload. *)

Record SnaggMeme : Type := {
  title : js_opt jsstring;
  slug : js_opt jsstring;
  description : js_opt jsstring;
  image_url : js_opt jsstring;
  tags : js_opt (list jsstring);
  alt_text : js_opt jsstring;
  ai_alt_text : js_opt jsstring;
  watermarked_image_url : js_opt jsstring
}.

Record SnaggData : Type := {
  memes : js_opt (list (js_opt SnaggMeme))
}.

Record SnaggRandomResponse : Type := {
  data : js_opt SnaggData;
  error : js_opt jsstring
}.

(** ** HTTP *)

Record Request : Type := {
  url : jsstring;
  method : jsstring;
  req_headers : list (jsstring * jsstring)
}.

Record Response : Type := {
  ok : bool;
  status : N;
  statusText : jsstring;
  headers_get : jsstring -> js_opt jsstring;
  resp_text : outcome jsstring;
  resp_arrayBuffer : outcome ArrayBuffer;
  resp_json : outcome (js_opt SnaggRandomResponse)
}.

Record Blob : Type := {
  blob_parts : ArrayBuffer;
  blob_type : jsstring
}.

(** ** Configuration ([config.ts]) *)

Record SnaggConfig : Type := {
  apiUrl : jsstring;
  apiKey : js_opt jsstring
}.

(** ** The content record ([PostData])

    The variants of [getPostText] declare different subsets of these
    properties; a property an object literal does not mention is
    [undefined]. *)

Record PostData : Type := {
  text : jsstring;
  imageBuffer : js_opt ArrayBuffer;
  imageMimeType : js_opt jsstring;
  imageUrl : js_opt jsstring;
  imageAlt : js_opt jsstring;
  externalUrl : js_opt jsstring;
  externalTitle : js_opt jsstring;
  externalDescription : js_opt jsstring
}.

(** [{ text }] *)
Definition text_only_record (t : jsstring) : PostData :=
  {| text := t; imageBuffer := undefined; imageMimeType := undefined;
     imageUrl := undefined; imageAlt := undefined; externalUrl := undefined;
     externalTitle := undefined; externalDescription := undefined |}.

Definition is_set {A : Type} (x : js_opt A) : bool :=
  match x with val _ => true | _ => false end.

(** ** The runtime and the outside world *)

(** What the JavaScript runtime and the AT Protocol library provide. *)
Class Runtime : Type := {
  Facets : Type;
  BlobRef : Type;
  decodeURIComponent : jsstring -> outcome jsstring
}.

(** [decodeURIComponent] as ECMAScript defines it, on code units: every
    [%XX] escape is a byte, and the bytes must form well-formed UTF-8. *)
Module PercentDecoding.

Definition hex_val (c : N) : option N :=
  if (48 <=? c) && (c <=? 57) then Some (c - 48)
  else if (65 <=? c) && (c <=? 70) then Some (c - 55)
  else if (97 <=? c) && (c <=? 102) then Some (c - 87)
  else None.

Inductive token : Type :=
| Lit (c : N)
| Esc (b : N).

Fixpoint tokens (s : jsstring) : option (list token) :=
  match s with
  | [] => Some []
  | c :: rest =>
      if c =? 37 then
        match rest with
        | h :: l :: rest' =>
            match hex_val h, hex_val l, tokens rest' with
            | Some a, Some b, Some ts => Some (Esc (16 * a + b) :: ts)
            | _, _, _ => None
            end
        | _ => None
        end
      else option_map (cons (Lit c)) (tokens rest)
  end.

Definition is_cont (b : N) : bool := (128 <=? b) && (b <? 192).

Definition scalar_ok (lo v : N) : bool :=
  (lo <=? v) && (v <=? 1114111) && negb ((55296 <=? v) && (v <=? 57343)).

Fixpoint decode_tokens (ts : list token) : option jsstring :=
  match ts with
  | [] => Some []
  | Lit c :: ts' => option_map (cons c) (decode_tokens ts')
  | Esc b :: ts' =>
      if b <? 128 then option_map (cons b) (decode_tokens ts')
      else if (192 <=? b) && (b <? 224) then
        match ts' with
        | Esc b1 :: ts1 =>
            let v := (b - 192) * 64 + (b1 - 128) in
            if is_cont b1 && scalar_ok 128 v
            then option_map (app (utf16 v)) (decode_tokens ts1)
            else None
        | _ => None
        end
      else if (224 <=? b) && (b <? 240) then
        match ts' with
        | Esc b1 :: Esc b2 :: ts2 =>
            let v := (b - 224) * 4096 + (b1 - 128) * 64 + (b2 - 128) in
            if is_cont b1 && is_cont b2 && scalar_ok 2048 v
            then option_map (app (utf16 v)) (decode_tokens ts2)
            else None
        | _ => None
        end
      else if (240 <=? b) && (b <? 248) then
        match ts' with
        | Esc b1 :: Esc b2 :: Esc b3 :: ts3 =>
            let v := (b - 240) * 262144 + (b1 - 128) * 4096
                     + (b2 - 128) * 64 + (b3 - 128) in
            if is_cont b1 && is_cont b2 && is_cont b3 && scalar_ok 65536 v
            then option_map (app (utf16 v)) (decode_tokens ts3)
            else None
        | _ => None
        end
      else None
  end.

Definition percent_decode (s : jsstring) : outcome jsstring :=
  match tokens s with
  | Some ts =>
      match decode_tokens ts with
      | Some r => Return r
      | None => Throw URIError
      end
  | None => Throw URIError
  end.

End PercentDecoding.

(** A runtime for the examples: facets and blob references are strings. *)
#[export] Instance node_runtime : Runtime := {|
  Facets := list jsstring;
  BlobRef := jsstring;
  decodeURIComponent := PercentDecoding.percent_decode
|}.

(** ** Effects *)

Section Effects.
Context `{Runtime}.

(** One uploaded image of an [app.bsky.embed.images] embed. *)
Record EmbedImage : Type := {
  image : BlobRef;
  alt : jsstring
}.

(** The [external] object of an [app.bsky.embed.external] embed. *)
Record ExternalCard : Type := {
  uri : jsstring;
  card_title : jsstring;
  card_description : jsstring
}.

(** The object assigned to [record.embed]: its [$type] and whichever of
    [images] and [external] the object literal sets. *)
Record Embed : Type := {
  embed_type : jsstring;
  embed_images : js_opt (list EmbedImage);
  embed_external : js_opt ExternalCard
}.

(** The record handed to [agent.post]. *)
Record PostRecord : Type := {
  record_text : jsstring;
  record_facets : Facets;
  record_embed : js_opt Embed
}.

Inductive Event : Type :=
| EvFetch (r : Request)
| EvDetectFacets (t : jsstring)
| EvUploadBlob (b : Blob)
| EvPost (r : PostRecord).

Definition History := list Event.

(** What the collaborators answer, given everything done so far. *)
Record World : Type := {
  w_fetch : History -> Request -> outcome Response;
  w_detectFacets : History -> jsstring -> outcome Facets;
  w_uploadBlob : History -> Blob -> outcome BlobRef;
  w_post : History -> PostRecord -> outcome jsstring
}.

(** Computations: a world and a history in, an outcome and a history out. *)
Definition M (A : Type) : Type := World -> History -> outcome A * History.

Definition ret {A : Type} (a : A) : M A := fun _ h => (Return a, h).

Definition throw {A : Type} (e : exn) : M A := fun _ h => (Throw e, h).

Definition bind {A B : Type} (m : M A) (k : A -> M B) : M B :=
  fun w h =>
    match m w h with
    | (Return a, h') => k a w h'
    | (Throw e, h') => (Throw e, h')
    end.

(** [try { body } catch (error) { handler }] *)
Definition try_catch {A : Type} (body : M A) (handler : exn -> M A) : M A :=
  fun w h =>
    match body w h with
    | (Return a, h') => (Return a, h')
    | (Throw e, h') => handler e w h'
    end.

(** Settling a promise whose result the world has already fixed. *)
Definition await {A : Type} (o : outcome A) : M A := fun _ h => (o, h).

(** [await fetch(...)] *)
Definition fetch (r : Request) : M Response :=
  fun w h => (w_fetch w h r, h ++ [EvFetch r]).

(** [await richText.detectFacets(agent)] *)
Definition detectFacets (t : jsstring) : M Facets :=
  fun w h => (w_detectFacets w h t, h ++ [EvDetectFacets t]).

(** [await agent.uploadBlob(blob)], projected to [.data.blob] *)
Definition uploadBlob (b : Blob) : M BlobRef :=
  fun w h => (w_uploadBlob w h b, h ++ [EvUploadBlob b]).

(** [await agent.post(record)], projected to [.uri] *)
Definition agent_post (r : PostRecord) : M jsstring :=
  fun w h => (w_post w h r, h ++ [EvPost r]).

End Effects.

Declare Scope js_scope.
Delimit Scope js_scope with js.
Notation "x <- m ;; k" := (bind m (fun x => k))
  (at level 100, m at next level, right associativity) : js_scope.
Open Scope js_scope.

(** Request headers: the given ones, then [X-API-Key] when a key is set. *)
Definition with_api_key (cfg : SnaggConfig) (hs : list (jsstring * jsstring))
  : list (jsstring * jsstring) :=
  if truthy (apiKey cfg) then hs ++ [(js "X-API-Key", String_ (apiKey cfg))]
  else hs.

(** A line feed. *)
Definition LF : N := 10.

(** ** [getPostText.ts]: generate, then random, then a fixed text *)

Module Unified.
Section Unified.
Context `{Runtime}.
Variable cfg : SnaggConfig.

Definition generate_request : Request :=
  {| url := apiUrl cfg ++ js "/memes/generate/image";
     method := js "POST";
     req_headers := with_api_key cfg [] |}.

Definition random_request : Request :=
  {| url := apiUrl cfg ++ js "/random?count=1";
     method := js "GET";
     req_headers :=
       with_api_key cfg [(js "Content-Type", js "application/json")] |}.

(** [fetch(imageUrl)] *)
Definition image_request (imageUrl : js_opt jsstring) : Request :=
  {| url := String_ imageUrl; method := js "GET"; req_headers := [] |}.

(** The caption of a generated meme (the [if] chain on [topText] and
    [bottomText]). *)
Definition caption_text (topText bottomText : jsstring) : jsstring :=
  if str_truthy topText && str_truthy bottomText then
    topText ++ js " / " ++ bottomText
  else if str_truthy topText || str_truthy bottomText then
    (if str_truthy topText then topText else bottomText)
  else js "Fresh meme from snagg.meme " ++ fire.

Definition alt_parts (templateName topText bottomText : jsstring)
  : list jsstring :=
  [js "Meme"]
  ++ (if str_truthy templateName
      then [js "(" ++ templateName ++ js ")"] else [])
  ++ (if str_truthy topText
      then [js "Top text: " ++ [34] ++ topText ++ [34]] else [])
  ++ (if str_truthy bottomText
      then [js "Bottom text: " ++ [34] ++ bottomText ++ [34]] else []).

Definition fetchGeneratedMeme : M (option PostData) :=
  try_catch
    (response <- fetch generate_request ;;
     if negb (ok response) then
       errorText <- await (resp_text response) ;;
       ret None
     else
       imageBuffer <- await (resp_arrayBuffer response) ;;
       let contentType :=
         or_str (headers_get response (js "Content-Type"))
                (js "image/webp") in
       topText <- await (decodeURIComponent
         (or_str (headers_get response (js "X-Meme-Top-Text")) [])) ;;
       bottomText <- await (decodeURIComponent
         (or_str (headers_get response (js "X-Meme-Bottom-Text")) [])) ;;
       templateName <- await (decodeURIComponent
         (or_str (headers_get response (js "X-Meme-Template")) [])) ;;
       let postText := caption_text topText bottomText in
       let altParts := alt_parts templateName topText bottomText in
       ret (Some
         {| text := postText;
            imageBuffer := val imageBuffer;
            imageMimeType := val contentType;
            imageUrl := undefined;
            imageAlt := val (join (js " - ") altParts);
            externalUrl := undefined;
            externalTitle := undefined;
            externalDescription := undefined |}))
    (fun error => ret None).

(** [`#${t.replace(/\s+/g, "")}`] *)
Definition hashtag (t : jsstring) : jsstring := js "#" ++ strip_whitespace t.

(** [(meme.tags as string[])?.slice(0, 3) || []] *)
Definition first_tags (meme : SnaggMeme) : list jsstring :=
  match tags meme with
  | val l => firstn 3 l
  | _ => []
  end.

(** [postText] of a random meme. *)
Definition random_text (meme : SnaggMeme) : jsstring :=
  let hashtags := map hashtag (first_tags meme) in
  let postText := or_str (title meme) (js "Fresh meme from snagg.meme") in
  match hashtags with
  | [] => postText
  | _ :: _ => postText ++ [LF; LF] ++ join (js " ") hashtags
  end.

(** [meme.ai_alt_text || meme.description || meme.title] *)
Definition random_alt (meme : SnaggMeme) : js_opt jsstring :=
  or_else (or_else (ai_alt_text meme) (description meme)) (title meme).

(** [json?.data?.memes] *)
Definition listing (json : js_opt SnaggRandomResponse)
  : js_opt (list (js_opt SnaggMeme)) :=
  optchain (optchain json data) memes.

Definition fetchRandomMeme : M (option PostData) :=
  try_catch
    (response <- fetch random_request ;;
     if negb (ok response) then ret None
     else
       json <- await (resp_json response) ;;
       match listing json with
       | val (first :: _) =>
           (* [memes[0]]; reading [.image_url] of a nullish entry throws *)
           meme <- match first with
                   | val m => ret m
                   | _ => throw TypeError
                   end ;;
           let imageUrl := image_url meme in
           imageResponse <- fetch (image_request imageUrl) ;;
           if negb (ok imageResponse) then ret None
           else
             imageBuffer <- await (resp_arrayBuffer imageResponse) ;;
             let contentType :=
               or_str (headers_get imageResponse (js "Content-Type"))
                      (js "image/webp") in
             ret (Some
               {| text := random_text meme;
                  imageBuffer := val imageBuffer;
                  imageMimeType := val contentType;
                  imageUrl := undefined;
                  imageAlt := random_alt meme;
                  externalUrl := undefined;
                  externalTitle := undefined;
                  externalDescription := undefined |})
       | _ => ret None   (* [!memes || memes.length === 0] *)
       end)
    (fun error => ret None).

Definition fallback_text : jsstring :=
  js "Check out snagg.meme for fresh memes! " ++ fire.

Definition getPostText : M PostData :=
  generated <- fetchGeneratedMeme ;;
  match generated with
  | Some d => ret d
  | None =>
      random <- fetchRandomMeme ;;
      match random with
      | Some d => ret d
      | None => ret (text_only_record fallback_text)
      end
  end.

End Unified.
End Unified.

(** ** The generate-only variant of [getPostText]

    One request to the generation endpoint; any failure is answered with the
    fixed text.  Its [PostData] has no [imageMimeType]. *)

Module GenerateOnly.
Section GenerateOnly.
Context `{Runtime}.
Variable cfg : SnaggConfig.

Definition fallback_text : jsstring :=
  js "Check out snagg.meme for fresh memes! " ++ fire.

Definition getPostText : M PostData :=
  try_catch
    (response <- fetch (Unified.generate_request cfg) ;;
     if negb (ok response) then
       errorText <- await (resp_text response) ;;
       throw (Error (js "Failed to generate meme: "
                     ++ String_N (status response) ++ js " "
                     ++ statusText response ++ js " - " ++ errorText))
     else
       imageBuffer <- await (resp_arrayBuffer response) ;;
       topText <- await (decodeURIComponent
         (or_str (headers_get response (js "X-Meme-Top-Text")) [])) ;;
       bottomText <- await (decodeURIComponent
         (or_str (headers_get response (js "X-Meme-Bottom-Text")) [])) ;;
       templateName <- await (decodeURIComponent
         (or_str (headers_get response (js "X-Meme-Template")) [])) ;;
       let postText := Unified.caption_text topText bottomText in
       let altParts := Unified.alt_parts templateName topText bottomText in
       let imageAlt := join (js " - ") altParts in
       ret {| text := postText;
              imageBuffer := val imageBuffer;
              imageMimeType := undefined;
              imageUrl := undefined;
              imageAlt := val imageAlt;
              externalUrl := undefined;
              externalTitle := undefined;
              externalDescription := undefined |})
    (fun error => ret (text_only_record fallback_text)).

End GenerateOnly.
End GenerateOnly.

(** ** The single-request random variant of [getPostText]

    One request to [/random]; the record carries the image's URL and a link
    to the meme's page, and the publisher downloads the image. *)

Module RandomLink.
Section RandomLink.
Context `{Runtime}.
Variable cfg : SnaggConfig.

Definition random_request : Request :=
  {| url := apiUrl cfg ++ js "/random";
     method := js "GET";
     req_headers :=
       with_api_key cfg [(js "Content-Type", js "application/json")] |}.

Definition fallback_text : jsstring :=
  js "Check out snagg.meme for some great memes!".

(** [meme.watermarked_image_url || meme.image_url] *)
Definition meme_image_url (meme : SnaggMeme) : js_opt jsstring :=
  or_else (watermarked_image_url meme) (image_url meme).

(** [meme.alt_text || meme.description || meme.title || "Meme from snagg.meme"] *)
Definition meme_image_alt (meme : SnaggMeme) : jsstring :=
  or_str (or_else (or_else (alt_text meme) (description meme)) (title meme))
         (js "Meme from snagg.meme").

Definition meme_record (meme : SnaggMeme) : PostData :=
  let memePageUrl := js "https://snagg.meme/meme/" ++ String_ (slug meme) in
  let imageUrl := meme_image_url meme in
  let imageAlt := meme_image_alt meme in
  {| text := or_str (title meme) (js "Check out this meme from snagg.meme!");
     imageBuffer := undefined;
     imageMimeType := undefined;
     imageUrl := imageUrl;
     imageAlt := val imageAlt;
     externalUrl := val memePageUrl;
     externalTitle := undefined;
     externalDescription := undefined |}.

Definition getPostText : M PostData :=
  try_catch
    (response <- fetch random_request ;;
     if negb (ok response) then
       throw (Error (js "Failed to fetch from snagg API: "
                     ++ String_N (status response) ++ js " "
                     ++ statusText response))
     else
       result <- await (resp_json response) ;;
       (* reading a property of a nullish value throws *)
       r <- match result with val r => ret r | _ => throw TypeError end ;;
       if truthy (error r) then
         throw (Error (js "Snagg API error: " ++ String_ (error r)))
       else
         d <- match data r with val d => ret d | _ => throw TypeError end ;;
         l <- match memes d with val l => ret l | _ => throw TypeError end ;;
         match l with
         | val meme :: _ => ret (meme_record meme)
         | _ => throw (Error (js "No memes returned from API"))
         end)
    (fun error => ret (text_only_record fallback_text)).

End RandomLink.
End RandomLink.

(** ** [Bot.post] ([bot.ts], the [PostData] version) *)

Module Bot.
Section Bot.
Context `{Runtime}.

(** [fetch(postData.imageUrl)] *)
Definition image_request (imageUrl : js_opt jsstring) : Request :=
  {| url := String_ imageUrl; method := js "GET"; req_headers := [] |}.

Definition images_embed (uploaded : BlobRef) (imageAlt : js_opt jsstring)
  : Embed :=
  {| embed_type := js "app.bsky.embed.images";
     embed_images := val [ {| image := uploaded; alt := or_str imageAlt [] |} ];
     embed_external := undefined |}.

Definition external_embed (postData : PostData) : Embed :=
  {| embed_type := js "app.bsky.embed.external";
     embed_images := undefined;
     embed_external :=
       val {| uri := String_ (externalUrl postData);
              card_title := or_str (externalTitle postData) [];
              card_description := or_str (externalDescription postData) [] |} |}.

Definition post (postData : PostData) : M jsstring :=
  facets <- detectFacets (text postData) ;;
  let record :=
    {| record_text := text postData;
       record_facets := facets;
       record_embed := undefined |} in
  record <-
    (if truthy (imageUrl postData) then
       imageResponse <- fetch (image_request (imageUrl postData)) ;;
       if negb (ok imageResponse) then
         throw (Error (js "Failed to fetch image: "
                       ++ statusText imageResponse))
       else
         imageBuffer <- await (resp_arrayBuffer imageResponse) ;;
         let imageBlob :=
           {| blob_parts := imageBuffer;
              blob_type :=
                or_str (headers_get imageResponse (js "content-type"))
                       (js "image/jpeg") |} in
         uploaded <- uploadBlob imageBlob ;;
         ret {| record_text := record_text record;
                record_facets := record_facets record;
                record_embed := val (images_embed uploaded (imageAlt postData)) |}
     else if truthy (externalUrl postData) then
       ret {| record_text := record_text record;
              record_facets := record_facets record;
              record_embed := val (external_embed postData) |}
     else ret record) ;;
  result <- agent_post record ;;
  ret result.

End Bot.
End Bot.

(** ** Vocabulary of the properties *)

Section Vocabulary.
Context `{Runtime}.

(** *** Content records *)

(** Nothing but [text] is set. *)
Definition text_only (d : PostData) : bool :=
  negb (is_set (imageBuffer d)) && negb (is_set (imageMimeType d))
  && negb (is_set (imageUrl d)) && negb (is_set (imageAlt d))
  && negb (is_set (externalUrl d)) && negb (is_set (externalTitle d))
  && negb (is_set (externalDescription d)).

(** None of the media properties is set. *)
Definition no_media (d : PostData) : bool :=
  negb (is_set (imageBuffer d)) && negb (is_set (imageUrl d))
  && negb (is_set (externalUrl d)).

(** The invariant of the data model: the image is given at most once (as
    bytes or as a URL, either of them possibly next to a link), and a
    record is text-only exactly when it has no media. *)
Definition record_invariant (d : PostData) : Prop :=
  is_set (imageBuffer d) && is_set (imageUrl d) = false
  /\ (text_only d = true <-> no_media d = true).

(** *** Outcomes of the generate strategy *)

Definition caption_headers : list jsstring :=
  [js "X-Meme-Top-Text"; js "X-Meme-Bottom-Text"; js "X-Meme-Template"].

(** The endpoint answers 2xx with a readable body and decodable caption
    headers. *)
Definition generate_success (cfg : SnaggConfig) (w : World) (h : History)
    (r : Response) (buf : ArrayBuffer) (top bottom template : jsstring)
  : Prop :=
  w_fetch w h (Unified.generate_request cfg) = Return r
  /\ ok r = true
  /\ resp_arrayBuffer r = Return buf
  /\ decodeURIComponent (or_str (headers_get r (js "X-Meme-Top-Text")) [])
     = Return top
  /\ decodeURIComponent (or_str (headers_get r (js "X-Meme-Bottom-Text")) [])
     = Return bottom
  /\ decodeURIComponent (or_str (headers_get r (js "X-Meme-Template")) [])
     = Return template.

Inductive generate_failure (cfg : SnaggConfig) (w : World) (h : History)
  : Prop :=
| gen_network_error (e : exn) :
    w_fetch w h (Unified.generate_request cfg) = Throw e ->
    generate_failure cfg w h
| gen_not_ok (r : Response) :
    w_fetch w h (Unified.generate_request cfg) = Return r ->
    ok r = false ->
    generate_failure cfg w h
| gen_unreadable_body (r : Response) (e : exn) :
    w_fetch w h (Unified.generate_request cfg) = Return r ->
    ok r = true ->
    resp_arrayBuffer r = Throw e ->
    generate_failure cfg w h
| gen_malformed_header (r : Response) (name : jsstring) (e : exn) :
    w_fetch w h (Unified.generate_request cfg) = Return r ->
    ok r = true ->
    In name caption_headers ->
    decodeURIComponent (or_str (headers_get r name) []) = Throw e ->
    generate_failure cfg w h.

(** *** Outcomes of the random strategy *)

(** The history once the listing has been requested. *)
Definition after_listing (cfg : SnaggConfig) (h : History) : History :=
  h ++ [EvFetch (Unified.random_request cfg)].

(** The listing answers 2xx with a first entry [meme], and the image it
    names downloads. *)
Definition random_success (cfg : SnaggConfig) (w : World) (h : History)
    (meme : SnaggMeme) (ir : Response) (buf : ArrayBuffer) : Prop :=
  exists r json rest,
    w_fetch w h (Unified.random_request cfg) = Return r
    /\ ok r = true
    /\ resp_json r = Return json
    /\ Unified.listing json = val (val meme :: rest)
    /\ w_fetch w (after_listing cfg h) (Unified.image_request (image_url meme))
       = Return ir
    /\ ok ir = true
    /\ resp_arrayBuffer ir = Return buf.

(** The listing answered 2xx with this first entry. *)
Definition listed (cfg : SnaggConfig) (w : World) (h : History)
    (first : js_opt SnaggMeme) : Prop :=
  exists r json rest,
    w_fetch w h (Unified.random_request cfg) = Return r
    /\ ok r = true
    /\ resp_json r = Return json
    /\ Unified.listing json = val (first :: rest).

Inductive random_failure (cfg : SnaggConfig) (w : World) (h : History)
  : Prop :=
| rnd_network_error (e : exn) :
    w_fetch w h (Unified.random_request cfg) = Throw e ->
    random_failure cfg w h
| rnd_not_ok (r : Response) :
    w_fetch w h (Unified.random_request cfg) = Return r ->
    ok r = false ->
    random_failure cfg w h
| rnd_unparseable_body (r : Response) (e : exn) :
    w_fetch w h (Unified.random_request cfg) = Return r ->
    ok r = true ->
    resp_json r = Throw e ->
    random_failure cfg w h
| rnd_empty_listing (r : Response) (json : js_opt SnaggRandomResponse) :
    w_fetch w h (Unified.random_request cfg) = Return r ->
    ok r = true ->
    resp_json r = Return json ->
    (Unified.listing json = undefined \/ Unified.listing json = null
     \/ Unified.listing json = val []) ->
    random_failure cfg w h
| rnd_null_entry (first : js_opt SnaggMeme) :
    listed cfg w h first ->
    is_set first = false ->
    random_failure cfg w h
| rnd_image_network_error (meme : SnaggMeme) (e : exn) :
    listed cfg w h (val meme) ->
    w_fetch w (after_listing cfg h) (Unified.image_request (image_url meme))
      = Throw e ->
    random_failure cfg w h
| rnd_image_not_ok (meme : SnaggMeme) (ir : Response) :
    listed cfg w h (val meme) ->
    w_fetch w (after_listing cfg h) (Unified.image_request (image_url meme))
      = Return ir ->
    ok ir = false ->
    random_failure cfg w h
| rnd_image_unreadable (meme : SnaggMeme) (ir : Response) (e : exn) :
    listed cfg w h (val meme) ->
    w_fetch w (after_listing cfg h) (Unified.image_request (image_url meme))
      = Return ir ->
    ok ir = true ->
    resp_arrayBuffer ir = Throw e ->
    random_failure cfg w h.

(** The text the specification describes for a random meme: the title,
    then, when there are tags, a blank line and at most three hashtags
    separated by single spaces. *)
Definition spec_random_text (title : jsstring) (tags : list jsstring)
  : jsstring :=
  match tags with
  | [] => title
  | _ :: _ =>
      title ++ [LF; LF]
      ++ join (js " ") (map (fun t => js "#" ++ strip_whitespace t)
                            (firstn 3 tags))
  end.

(** What the entry gives as title and tags. *)
Definition title_of (meme : SnaggMeme) : jsstring :=
  match title meme with val t => t | _ => [] end.

Definition tags_of (meme : SnaggMeme) : list jsstring :=
  match tags meme with val l => l | _ => [] end.

(** *** The single-request variant *)

(** [/random] answers 2xx, without error, with a first entry [meme]. *)
Definition link_parsed (cfg : SnaggConfig) (w : World) (h : History)
    (meme : SnaggMeme) : Prop :=
  exists r json d rest,
    w_fetch w h (RandomLink.random_request cfg) = Return r
    /\ ok r = true
    /\ resp_json r = Return (val json)
    /\ truthy (error json) = false
    /\ data json = val d
    /\ memes d = val (val meme :: rest).

(** *** Post assembly *)

(** The history once the facets of the text have been detected. *)
Definition after_facets (d : PostData) (h : History) : History :=
  h ++ [EvDetectFacets (text d)].

(** The history once the image has also been requested. *)
Definition after_image (d : PostData) (h : History) : History :=
  after_facets d h ++ [EvFetch (Bot.image_request (imageUrl d))].

Definition image_blob (ir : Response) (buf : ArrayBuffer) : Blob :=
  {| blob_parts := buf;
     blob_type := or_str (headers_get ir (js "content-type"))
                         (js "image/jpeg") |}.

(** The image the record names cannot be turned into an uploaded blob. *)
Inductive image_unresolved (w : World) (d : PostData) (h : History)
  : Prop :=
| img_network_error (e : exn) :
    w_fetch w (after_facets d h) (Bot.image_request (imageUrl d)) = Throw e ->
    image_unresolved w d h
| img_not_ok (ir : Response) :
    w_fetch w (after_facets d h) (Bot.image_request (imageUrl d)) = Return ir ->
    ok ir = false ->
    image_unresolved w d h
| img_unreadable (ir : Response) (e : exn) :
    w_fetch w (after_facets d h) (Bot.image_request (imageUrl d)) = Return ir ->
    ok ir = true ->
    resp_arrayBuffer ir = Throw e ->
    image_unresolved w d h
| img_upload_failed (ir : Response) (buf : ArrayBuffer) (e : exn) :
    w_fetch w (after_facets d h) (Bot.image_request (imageUrl d)) = Return ir ->
    ok ir = true ->
    resp_arrayBuffer ir = Return buf ->
    w_uploadBlob w (after_image d h) (image_blob ir buf) = Throw e ->
    image_unresolved w d h.

(** An embed object is of exactly one variant: an images embed or an
    external-link embed, its [$type] naming the one payload it has. *)
Definition one_variant (e : Embed) : Prop :=
  (embed_type e = js "app.bsky.embed.images"
   /\ is_set (embed_images e) = true /\ is_set (embed_external e) = false)
  \/ (embed_type e = js "app.bsky.embed.external"
      /\ is_set (embed_images e) = false /\ is_set (embed_external e) = true).

Definition is_images_embed (e : js_opt Embed) : Prop :=
  exists x, e = val x /\ embed_type x = js "app.bsky.embed.images"
            /\ is_set (embed_images x) = true
            /\ is_set (embed_external x) = false.

(** The records [Bot.post] handed to [agent.post], oldest first. *)
Fixpoint submitted (evs : list Event) : list PostRecord :=
  match evs with
  | [] => []
  | EvPost r :: rest => r :: submitted rest
  | _ :: rest => submitted rest
  end.

(** *** The records the operations build *)

(** The record a successful generation is turned into. *)
Definition generated_record (r : Response) (buf : ArrayBuffer)
    (top bottom template : jsstring) : PostData :=
  {| text := Unified.caption_text top bottom;
     imageBuffer := val buf;
     imageMimeType :=
       val (or_str (headers_get r (js "Content-Type")) (js "image/webp"));
     imageUrl := undefined;
     imageAlt := val (join (js " - ") (Unified.alt_parts template top bottom));
     externalUrl := undefined;
     externalTitle := undefined;
     externalDescription := undefined |}.

(** The record a downloaded random meme is turned into. *)
Definition random_record (meme : SnaggMeme) (ir : Response)
    (buf : ArrayBuffer) : PostData :=
  {| text := Unified.random_text meme;
     imageBuffer := val buf;
     imageMimeType :=
       val (or_str (headers_get ir (js "Content-Type")) (js "image/webp"));
     imageUrl := undefined;
     imageAlt := Unified.random_alt meme;
     externalUrl := undefined;
     externalTitle := undefined;
     externalDescription := undefined |}.

(** The generate-only variant builds the same record, without a MIME type. *)
Definition generated_record_v1 (buf : ArrayBuffer)
    (top bottom template : jsstring) : PostData :=
  {| text := Unified.caption_text top bottom;
     imageBuffer := val buf;
     imageMimeType := undefined;
     imageUrl := undefined;
     imageAlt := val (join (js " - ") (Unified.alt_parts template top bottom));
     externalUrl := undefined;
     externalTitle := undefined;
     externalDescription := undefined |}.

(** The image the record names is downloaded and uploaded. *)
Definition image_resolved (w : World) (d : PostData) (h : History)
    (uploaded : BlobRef) : Prop :=
  exists ir buf,
    w_fetch w (after_facets d h) (Bot.image_request (imageUrl d)) = Return ir
    /\ ok ir = true
    /\ resp_arrayBuffer ir = Return buf
    /\ w_uploadBlob w (after_image d h) (image_blob ir buf) = Return uploaded.

(** What [Bot.post] hands to [agent.post] for [d], given the facets and,
    when there is an image, its uploaded blob. *)
Definition post_record (d : PostData) (facets : Facets)
    (embed : js_opt Embed) : PostRecord :=
  {| record_text := text d; record_facets := facets; record_embed := embed |}.

End Vocabulary.

(** ** Sample worlds

    Concrete answers in the style of the repository's tests, under
    [node_runtime]. *)

Module Samples.

Fixpoint str_eqb (a b : jsstring) : bool :=
  match a, b with
  | [], [] => true
  | x :: a', y :: b' => (x =? y) && str_eqb a' b'
  | _, _ => false
  end.

Definition cfg : SnaggConfig :=
  {| apiUrl := js "https://snagg.meme/api/v1"; apiKey := val (js "test-key") |}.

Fixpoint headers_of (l : list (jsstring * jsstring)) (key : jsstring)
  : js_opt jsstring :=
  match l with
  | [] => null
  | (k, v) :: rest => if str_eqb k key then val v else headers_of rest key
  end.

Definition image_bytes : ArrayBuffer :=
  [Byte.x52; Byte.x49; Byte.x46; Byte.x46].

(** A non-2xx answer. *)
Definition failed_response (st : N) (reason body : jsstring) : Response :=
  {| ok := false; status := st; statusText := reason;
     headers_get := headers_of [];
     resp_text := Return body;
     resp_arrayBuffer := Return [];
     resp_json := Throw (Rejected (js "Unexpected token")) |}.

(** A 2xx answer carrying a parsed listing. *)
Definition json_response (j : js_opt SnaggRandomResponse) : Response :=
  {| ok := true; status := 200; statusText := js "OK";
     headers_get := headers_of [(js "Content-Type", js "application/json")];
     resp_text := Return [];
     resp_arrayBuffer := Return [];
     resp_json := Return j |}.

(** A 2xx answer carrying an image and these headers. *)
Definition image_response (hs : list (jsstring * jsstring)) : Response :=
  {| ok := true; status := 200; statusText := js "OK";
     headers_get := headers_of hs;
     resp_text := Return [];
     resp_arrayBuffer := Return image_bytes;
     resp_json := Throw (Rejected (js "Unexpected token")) |}.

Definition same_request (a b : Request) : bool :=
  str_eqb (method a) (method b) && str_eqb (url a) (url b).

Fixpoint lookup (table : list (Request * Response)) (r : Request)
  : outcome Response :=
  match table with
  | [] => Throw TypeError
  | (q, a) :: rest => if same_request q r then Return a else lookup rest r
  end.

Definition blob_ref : jsstring := js "bafkrei-blob".

Definition post_uri : jsstring :=
  js "at://did:plc:bot/app.bsky.feed.post/3k".

(** The network answers from [table] (anything else fails to connect);
    uploads answer [upload]. *)
Definition serve (table : list (Request * Response))
    (upload : outcome jsstring) : World :=
  {| w_fetch := fun _ r => lookup table r;
     w_detectFacets := fun _ _ => Return [];
     w_uploadBlob := fun _ _ => upload;
     w_post := fun _ _ => Return post_uri |}.

Definition offline : World := serve [] (Throw (Rejected (js "offline"))).

Definition meme_of (t : js_opt jsstring) (l : list jsstring) : SnaggMeme :=
  {| title := t; slug := val (js "test-meme"); description := val (js "Description");
     image_url := val (js "https://cdn.snagg.meme/original.webp");
     tags := val l; alt_text := undefined;
     ai_alt_text := val (js "A funny meme");
     watermarked_image_url := val (js "https://cdn.snagg.meme/watermarked.webp") |}.

Definition listing_of (m : SnaggMeme) : js_opt SnaggRandomResponse :=
  val {| data := val {| memes := val [val m] |}; error := null |}.

Definition test_meme : SnaggMeme :=
  meme_of (val (js "Test Meme")) [js "funny"; js "meme"].

Definition untitled_meme : SnaggMeme := meme_of (val []) [].

Definition original_image : Request :=
  {| url := js "https://cdn.snagg.meme/original.webp";
     method := js "GET"; req_headers := [] |}.

Definition watermarked_image : Request :=
  {| url := js "https://cdn.snagg.meme/watermarked.webp";
     method := js "GET"; req_headers := [] |}.

(** Generation is down (500); the listing has [m]; its image downloads. *)
Definition random_world (m : SnaggMeme) : World :=
  serve
    [ (Unified.generate_request cfg,
       failed_response 500 (js "Internal Server Error")
                       (js "Caption generation failed"));
      (Unified.random_request cfg, json_response (listing_of m));
      (original_image, image_response [(js "Content-Type", js "image/webp")]) ]
    (Return blob_ref).

(** Generation answers with percent-encoded captions. *)
Definition generate_world : World :=
  serve
    [ (Unified.generate_request cfg,
       image_response
         [ (js "Content-Type", js "image/webp");
           (js "X-Meme-Top-Text", js "WHEN%20THE%20CODE");
           (js "X-Meme-Bottom-Text", js "FINALLY%20COMPILES");
           (js "X-Meme-Template", js "Drake") ]) ]
    (Return blob_ref).

(** The single-request variant's endpoint has [m]; image and upload as
    given. *)
Definition link_world (m : SnaggMeme) (img : Response)
    (upload : outcome jsstring) : World :=
  serve
    [ (RandomLink.random_request cfg, json_response (listing_of m));
      (watermarked_image, img) ]
    upload.

Definition linked_record : PostData := RandomLink.meme_record test_meme.

Definition not_found : Response :=
  failed_response 404 (js "Not Found") [].

End Samples.

(** ** URLs of the site

    The first [getPostText] and the HTML scraper turn the URLs they find
    into absolute ones with the same conditional expression. *)

(** [s.startsWith(p)] *)
Fixpoint startsWith (s p : jsstring) {struct p} : bool :=
  match p, s with
  | [], _ => true
  | c :: p', d :: s' => (c =? d) && startsWith s' p'
  | _ :: _, [] => false
  end.

(** [u.startsWith("http") ? u
     : `https://snagg.meme${u.startsWith("/") ? "" : "/"}${u}`] *)
Definition absolute_url (u : jsstring) : jsstring :=
  if startsWith u (js "http") then u
  else js "https://snagg.meme"
       ++ (if startsWith u (js "/") then [] else js "/") ++ u.

(** U+1F389, the party popper of the first variant's string literals. *)
Definition party : jsstring := utf16 127881.

(** ** The first [getPostText] and the scraper

    Both talk to the old site: one request for a meme (and one for its
    image), or one request for the home page.  Their history is the list of
    requests made. *)

Module OldSite.

(** The [image] object of the old [/random] answer. *)
Record MemeImage : Type := {
  img_url : js_opt jsstring
}.

(** The old [/random] answer ([SnaggRandomResponse] of the first variant),
    with the properties the bot reads. *)
Record RandomMeme : Type := {
  meme_url : js_opt jsstring;
  meme_image : js_opt MemeImage
}.

Record Answer : Type := {
  a_ok : bool;
  a_status : N;
  a_statusText : jsstring;
  a_json : outcome (js_opt RandomMeme);
  a_arrayBuffer : outcome ArrayBuffer;
  a_text : outcome jsstring
}.

(** What the site answers, given the requests made so far. *)
Definition Net : Type := list Request -> Request -> outcome Answer.

Definition L (A : Type) : Type :=
  Net -> list Request -> outcome A * list Request.

Definition lret {A : Type} (a : A) : L A := fun _ h => (Return a, h).

Definition lthrow {A : Type} (e : exn) : L A := fun _ h => (Throw e, h).

Definition lbind {A B : Type} (m : L A) (k : A -> L B) : L B :=
  fun n h =>
    match m n h with
    | (Return a, h') => k a n h'
    | (Throw e, h') => (Throw e, h')
    end.

Definition ltry {A : Type} (body : L A) (handler : exn -> L A) : L A :=
  fun n h =>
    match body n h with
    | (Return a, h') => (Return a, h')
    | (Throw e, h') => handler e n h'
    end.

Definition lawait {A : Type} (o : outcome A) : L A := fun _ h => (o, h).

(** [await fetch(url)] *)
Definition lfetch (u : jsstring) : L Answer :=
  fun n h =>
    let r := {| url := u; method := js "GET"; req_headers := [] |} in
    (n h r, h ++ [r]).

Notation "x <~ m ;; k" := (lbind m (fun x => k))
  (at level 100, m at next level, right associativity).

(** The embed object of the first variant: [$type] is
    [app.bsky.embed.image] or [app.bsky.embed.external]. *)
Record EmbedObject : Type := {
  e_type : jsstring;
  e_images : js_opt (list (Blob * jsstring));
  e_external : js_opt ExternalCard
}.

(** [string | PostRecord] *)
Inductive Post : Type :=
| PostText (t : jsstring)
| PostRecord_ (t : jsstring) (embed : EmbedObject).

Definition post_text : jsstring :=
  js "Check out this meme from snagg.meme! " ++ party.

Definition fallback_text : jsstring :=
  js "Check out snagg.meme for some great memes! " ++ party.

Definition image_embed (imageBytes : ArrayBuffer) : EmbedObject :=
  {| e_type := js "app.bsky.embed.image";
     e_images :=
       val [ ({| blob_parts := imageBytes; blob_type := js "image/jpeg" |},
              js "Meme from snagg.meme") ];
     e_external := undefined |}.

Definition external_embed (memeUrl : jsstring) : EmbedObject :=
  {| e_type := js "app.bsky.embed.external";
     e_images := undefined;
     e_external :=
       val {| uri := memeUrl;
              card_title := js "snagg.meme";
              card_description := js "A collection of great memes" |} |}.

Definition api_url : jsstring := js "https://api.snagg.meme/api/v1/random".

(** The first [getPostText] of [getPostText.ts]. *)
Definition getPostText : L Post :=
  ltry
    (response <~ lfetch api_url ;;
     if negb (a_ok response) then
       lthrow (Error (js "Failed to fetch from snagg API: "
                      ++ String_N (a_status response) ++ js " "
                      ++ a_statusText response))
     else
       data <~ lawait (a_json response) ;;
       (* reading [.image] of a nullish value throws *)
       d <~ match data with val d => lret d | _ => lthrow TypeError end ;;
       let image_url := optchain (meme_image d) img_url in
       if truthy image_url then
         let imageUrl := absolute_url (String_ image_url) in
         imageResponse <~ lfetch imageUrl ;;
         if negb (a_ok imageResponse) then
           lthrow (Error (js "Failed to fetch image: "
                          ++ a_statusText imageResponse))
         else
           imageBuffer <~ lawait (a_arrayBuffer imageResponse) ;;
           lret (PostRecord_ post_text (image_embed imageBuffer))
       else
         (* [data.url.startsWith] of a nullish value throws *)
         u <~ match meme_url d with val u => lret u | _ => lthrow TypeError end ;;
         let memeUrl := absolute_url u in
         lret (PostRecord_ post_text (external_embed memeUrl)))
    (fun error => lret (PostText fallback_text)).

(** *** The HTML scraper, the oldest [getPostText]

    [cheerio] and [Math.random] are the library's and the runtime's:
    [img_src] gives the [src] attribute of every [img] element of a
    document, in document order, and [random_index n] is
    [Math.floor(Math.random() * n)]. *)

Section Scraper.
Variable img_src : jsstring -> list (js_opt jsstring).
Variable random_index : nat -> nat.

(** The fixed text as the source file spells it: after the space come
    U+00F0, U+0178, U+017D and U+2030. *)
Definition scraper_fallback_text : jsstring :=
  js "Check out snagg.meme for some great memes! " ++ [240; 376; 381; 8240].

(** The [each] loop: the [src] values that are truthy. *)
Fixpoint truthy_srcs (l : list (js_opt jsstring)) : list jsstring :=
  match l with
  | [] => []
  | src :: rest =>
      if truthy src then String_ src :: truthy_srcs rest
      else truthy_srcs rest
  end.

Definition scrape : L jsstring :=
  ltry
    (response <~ lfetch (js "https://snagg.meme") ;;
     if negb (a_ok response) then
       lthrow (Error (js "Failed to fetch snagg.meme: "
                      ++ String_N (a_status response) ++ js " "
                      ++ a_statusText response))
     else
       html <~ lawait (a_text response) ;;
       let imageUrls := truthy_srcs (img_src html) in
       match imageUrls with
       | [] => lthrow (Error (js "No images found on snagg.meme"))
       | _ :: _ =>
           (* an index past the end reads [undefined], whose
              [startsWith] throws *)
           match nth_error imageUrls (random_index (List.length imageUrls)) with
           | Some randomImage => lret (absolute_url randomImage)
           | None => lthrow TypeError
           end
       end)
    (fun error => lret scraper_fallback_text).

End Scraper.

End OldSite.

(** ** [config.ts] *)

Module Config.

(** [process.env]: a variable is a string or is not set. *)
Definition Env : Type := string -> option jsstring.

(** [z.string().min(1).optional()]: [None] when the value is refused. *)
Definition optional_string (v : option jsstring) : option (js_opt jsstring) :=
  match v with
  | None => Some undefined
  | Some [] => None
  | Some (c :: s) => Some (val (c :: s))
  end.

(** [z.string().min(1).default(d)] *)
Definition string_with_default (d : jsstring) (v : option jsstring)
  : option (js_opt jsstring) :=
  match v with
  | None => Some (val d)
  | Some [] => None
  | Some (c :: s) => Some (val (c :: s))
  end.

(** The object [envSchema.parse] returns. *)
Record Parsed : Type := {
  BSKY_HANDLE : js_opt jsstring;
  BSKY_PASSWORD : js_opt jsstring;
  BSKY_SERVICE : js_opt jsstring;
  MASTODON_INSTANCE : js_opt jsstring;
  MASTODON_ACCESS_TOKEN : js_opt jsstring;
  THREADS_ACCESS_TOKEN : js_opt jsstring;
  THREADS_USER_ID : js_opt jsstring;
  SNAGG_API_KEY : js_opt jsstring;
  SNAGG_API_URL : js_opt jsstring
}.

Definition default_service : jsstring := js "https://bsky.social".

Definition default_api_url : jsstring := js "https://snagg.meme/api/v1".

(** The schema's fields, in order, each with what it accepts. *)
Definition fields (env : Env) : list (option (js_opt jsstring)) :=
  [ optional_string (env "BSKY_HANDLE"%string);
    optional_string (env "BSKY_PASSWORD"%string);
    string_with_default default_service (env "BSKY_SERVICE"%string);
    optional_string (env "MASTODON_INSTANCE"%string);
    optional_string (env "MASTODON_ACCESS_TOKEN"%string);
    optional_string (env "THREADS_ACCESS_TOKEN"%string);
    optional_string (env "THREADS_USER_ID"%string);
    optional_string (env "SNAGG_API_KEY"%string);
    string_with_default default_api_url (env "SNAGG_API_URL"%string) ].

(** [envSchema.parse(env)]: [None] when it throws a [ZodError], which it
    does when any field is refused. *)
Definition parse (env : Env) : option Parsed :=
  match fields env with
  | [Some a; Some b; Some c; Some d; Some e; Some f; Some g; Some h; Some i] =>
      Some {| BSKY_HANDLE := a; BSKY_PASSWORD := b; BSKY_SERVICE := c;
              MASTODON_INSTANCE := d; MASTODON_ACCESS_TOKEN := e;
              THREADS_ACCESS_TOKEN := f; THREADS_USER_ID := g;
              SNAGG_API_KEY := h; SNAGG_API_URL := i |}
  | _ => None
  end.

(** [AtpAgentLoginOpts] *)
Record LoginOpts : Type := {
  identifier : jsstring;
  password : jsstring
}.

(** [bskyAccount]: the credentials, or [null]. *)
Definition bskyAccount (parsed : Parsed) : option LoginOpts :=
  if truthy (BSKY_HANDLE parsed) && truthy (BSKY_PASSWORD parsed) then
    Some {| identifier := String_ (BSKY_HANDLE parsed);
            password := String_ (BSKY_PASSWORD parsed) |}
  else None.

Definition bskyService (parsed : Parsed) : js_opt jsstring :=
  BSKY_SERVICE parsed.

Record MastodonConfig : Type := {
  instance : jsstring;
  accessToken : jsstring
}.

Record ThreadsConfig : Type := {
  threads_accessToken : jsstring;
  userId : jsstring
}.

(** [a && b && { ... }]: the object, or [None] for the falsy operand the
    chain stops at. *)
Definition mastodonConfig (parsed : Parsed) : option MastodonConfig :=
  if truthy (MASTODON_INSTANCE parsed) then
    if truthy (MASTODON_ACCESS_TOKEN parsed) then
      Some {| instance := String_ (MASTODON_INSTANCE parsed);
              accessToken := String_ (MASTODON_ACCESS_TOKEN parsed) |}
    else None
  else None.

Definition threadsConfig (parsed : Parsed) : option ThreadsConfig :=
  if truthy (THREADS_ACCESS_TOKEN parsed) then
    if truthy (THREADS_USER_ID parsed) then
      Some {| threads_accessToken := String_ (THREADS_ACCESS_TOKEN parsed);
              userId := String_ (THREADS_USER_ID parsed) |}
    else None
  else None.

Definition snaggConfig (parsed : Parsed) : SnaggConfig :=
  {| apiUrl := String_ (SNAGG_API_URL parsed);
     apiKey := SNAGG_API_KEY parsed |}.

(** The names the schema reads. *)
Definition variables : list string :=
  [ "BSKY_HANDLE"; "BSKY_PASSWORD"; "BSKY_SERVICE"; "MASTODON_INSTANCE";
    "MASTODON_ACCESS_TOKEN"; "THREADS_ACCESS_TOKEN"; "THREADS_USER_ID";
    "SNAGG_API_KEY"; "SNAGG_API_URL" ]%string.

End Config.

(** ** [Bot.run] and the entry scripts

    A run logs in, then fetches and posts.  Its state is the logins
    attempted and the history of the other effects. *)

Module Run.
Section Run.
Context `{Runtime}.

Record Session : Type := {
  logins : list Config.LoginOpts;
  history : History
}.

(** The agent: what [login] answers, and the world of the other calls. *)
Record Agent : Type := {
  a_login : Session -> Config.LoginOpts -> outcome unit;
  a_world : World
}.

Definition R (A : Type) : Type := Agent -> Session -> outcome A * Session.

Definition rret {A : Type} (a : A) : R A := fun _ s => (Return a, s).

Definition rthrow {A : Type} (e : exn) : R A := fun _ s => (Throw e, s).

Definition rbind {A B : Type} (m : R A) (k : A -> R B) : R B :=
  fun a s =>
    match m a s with
    | (Return x, s') => k x a s'
    | (Throw e, s') => (Throw e, s')
    end.

Definition rtry {A : Type} (body : R A) (handler : exn -> R A) : R A :=
  fun a s =>
    match body a s with
    | (Return x, s') => (Return x, s')
    | (Throw e, s') => handler e a s'
    end.

(** A computation of the bot, run within the session. *)
Definition lift {A : Type} (m : M A) : R A :=
  fun a s =>
    match m (a_world a) (history s) with
    | (o, h') => (o, {| logins := logins s; history := h' |})
    end.

(** [await bot.login(loginOpts)] *)
Definition login (loginOpts : Config.LoginOpts) : R unit :=
  fun a s =>
    (a_login a s loginOpts,
     {| logins := logins s ++ [loginOpts]; history := history s |}).

(** [Partial<BotOptions>]; [service] selects the agent. *)
Record BotOptions : Type := {
  dryRun : js_opt bool
}.

(** [dryRun] after [Object.assign({}, defaultOptions, botOptions)], as a
    condition: the default is [false]. *)
Definition dry (botOptions : option BotOptions) : bool :=
  match botOptions with
  | Some o => match dryRun o with val b => b | _ => false end
  | None => false
  end.

Definition missing_credentials : exn :=
  Error (js "BSKY_HANDLE and BSKY_PASSWORD must be set").

(** [Bot.run(getPostText, botOptions)] of [bot.ts] *)
Definition run (bskyAccount : option Config.LoginOpts)
    (getPostText : M PostData) (botOptions : option BotOptions) : R jsstring :=
  match bskyAccount with
  | None => rthrow missing_credentials
  | Some account =>
      rbind (login account) (fun _ =>
      rbind (lift getPostText) (fun postData =>
      if negb (dry botOptions) then lift (Bot.post postData)
      else rret (text postData)))
  end.

(** How a script ends: it runs to its end, or calls [process.exit]. *)
Inductive ending : Type :=
| Completed
| Exited (code : N).

Definition missing_credentials_env : exn :=
  Error (js "BSKY_HANDLE and BSKY_PASSWORD must be set in environment").

(** The entry script: log in, fetch, post. *)
Definition main (bskyAccount : option Config.LoginOpts)
    (getPostText : M PostData) (post : PostData -> M jsstring) : R ending :=
  match bskyAccount with
  | None => rthrow missing_credentials_env
  | Some account =>
      rbind (login account) (fun _ =>
      rbind (lift getPostText) (fun postData =>
      rbind (lift (post postData)) (fun uri =>
      rret Completed)))
  end.

(** The entry script with a last resort: when fetching or posting throws,
    post a random meme; when that fails too, exit with code 1.  [post] is
    the [Bot.post] the script is deployed with. *)
Definition main_with_fallback (cfg : SnaggConfig)
    (bskyAccount : option Config.LoginOpts)
    (post : PostData -> M jsstring) : R ending :=
  match bskyAccount with
  | None => rthrow missing_credentials_env
  | Some account =>
      rbind (login account) (fun _ =>
      rtry
        (rbind (lift (Unified.getPostText cfg)) (fun postData =>
         rbind (lift (post postData)) (fun uri =>
         rret Completed)))
        (fun error =>
           rtry
             (rbind (lift (Unified.fetchRandomMeme cfg)) (fun fallback =>
              match fallback with
              | Some d =>
                  rbind (lift (post d)) (fun uri => rret Completed)
              | None => rret (Exited 1)
              end))
             (fun fallbackError => rret (Exited 1))))
  end.

End Run.
End Run.

(** ** Vocabulary of the further properties *)

(** [fetch(u)]: a [GET] without headers. *)
Definition get_request (u : jsstring) : Request :=
  {| url := u; method := js "GET"; req_headers := [] |}.


(** The old site answered 2xx with the meme [d]. *)
Definition legacy_answered (n : OldSite.Net) (h : list Request)
    (d : OldSite.RandomMeme) : Prop :=
  exists a,
    n h (get_request OldSite.api_url) = Return a
    /\ OldSite.a_ok a = true
    /\ OldSite.a_json a = Return (val d).

(** The image URL the first variant reads: [data.image?.url]. *)
Definition legacy_image_url (d : OldSite.RandomMeme) : js_opt jsstring :=
  optchain (OldSite.meme_image d) OldSite.img_url.

(** The image at [u], requested after the meme, does not download. *)
Inductive legacy_image_failure (n : OldSite.Net) (h : list Request)
    (u : jsstring) : Prop :=
| legacy_image_unreachable (e : exn) :
    n (h ++ [get_request OldSite.api_url]) (get_request u) = Throw e ->
    legacy_image_failure n h u
| legacy_image_not_ok (ia : OldSite.Answer) :
    n (h ++ [get_request OldSite.api_url]) (get_request u) = Return ia ->
    OldSite.a_ok ia = false ->
    legacy_image_failure n h u
| legacy_image_unreadable (ia : OldSite.Answer) (e : exn) :
    n (h ++ [get_request OldSite.api_url]) (get_request u) = Return ia ->
    OldSite.a_ok ia = true ->
    OldSite.a_arrayBuffer ia = Throw e ->
    legacy_image_failure n h u.

Section FurtherVocabulary.
Context `{Runtime}.

(** [/random] gave the single-request variant nothing to build a record
    from. *)
Inductive link_failure (cfg : SnaggConfig) (w : World) (h : History)
  : Prop :=
| link_network_error (e : exn) :
    w_fetch w h (RandomLink.random_request cfg) = Throw e ->
    link_failure cfg w h
| link_not_ok (r : Response) :
    w_fetch w h (RandomLink.random_request cfg) = Return r ->
    ok r = false ->
    link_failure cfg w h
| link_unparseable (r : Response) (e : exn) :
    w_fetch w h (RandomLink.random_request cfg) = Return r ->
    ok r = true ->
    resp_json r = Throw e ->
    link_failure cfg w h
| link_null_body (r : Response) (json : js_opt SnaggRandomResponse) :
    w_fetch w h (RandomLink.random_request cfg) = Return r ->
    ok r = true ->
    resp_json r = Return json ->
    is_set json = false ->
    link_failure cfg w h
| link_api_error (r : Response) (json : SnaggRandomResponse) :
    w_fetch w h (RandomLink.random_request cfg) = Return r ->
    ok r = true ->
    resp_json r = Return (val json) ->
    truthy (error json) = true ->
    link_failure cfg w h
| link_no_entry (r : Response) (json : SnaggRandomResponse) :
    w_fetch w h (RandomLink.random_request cfg) = Return r ->
    ok r = true ->
    resp_json r = Return (val json) ->
    truthy (error json) = false ->
    (forall d meme rest,
        data json = val d -> memes d = val (val meme :: rest) -> False) ->
    link_failure cfg w h.


(** The session once [account] has tried to log in and the history has
    become [h]. *)
Definition logged (s : Run.Session) (account : Config.LoginOpts)
    (h : History) : Run.Session :=
  {| Run.logins := Run.logins s ++ [account]; Run.history := h |}.

Definition is_fetch (ev : Event) : bool :=
  match ev with EvFetch _ => true | _ => false end.




End FurtherVocabulary.

(** ** More sample worlds *)

Module MoreSamples.

Fixpoint env_of (l : list (string * jsstring)) (k : string)
  : option jsstring :=
  match l with
  | [] => None
  | (name, v) :: rest => if String.eqb name k then Some v else env_of rest k
  end.

Definition test_env : Config.Env :=
  env_of [ ("BSKY_HANDLE"%string, js "bot.bsky.social");
           ("BSKY_PASSWORD"%string, js "app-password");
           ("SNAGG_API_KEY"%string, js "test-key") ].

Definition test_parsed : Config.Parsed :=
  {| Config.BSKY_HANDLE := val (js "bot.bsky.social");
     Config.BSKY_PASSWORD := val (js "app-password");
     Config.BSKY_SERVICE := val (js "https://bsky.social");
     Config.MASTODON_INSTANCE := undefined;
     Config.MASTODON_ACCESS_TOKEN := undefined;
     Config.THREADS_ACCESS_TOKEN := undefined;
     Config.THREADS_USER_ID := undefined;
     Config.SNAGG_API_KEY := val (js "test-key");
     Config.SNAGG_API_URL := val (js "https://snagg.meme/api/v1") |}.

Definition account : Config.LoginOpts :=
  {| Config.identifier := js "bot.bsky.social";
     Config.password := js "app-password" |}.

Definition agent_of (w : World) (login : outcome unit) : Run.Agent :=
  {| Run.a_login := fun _ _ => login; Run.a_world := w |}.

Definition fresh : Run.Session :=
  {| Run.logins := []; Run.history := [] |}.

(** Nothing answers, and the agent refuses every post. *)
Definition rejecting : World :=
  {| w_fetch := fun _ _ => Throw TypeError;
     w_detectFacets := fun _ _ => Return [];
     w_uploadBlob := fun _ _ => Throw (Rejected (js "rate limited"));
     w_post := fun _ _ => Throw (Rejected (js "rate limited")) |}.

Definition old_answer (d : OldSite.RandomMeme) : OldSite.Answer :=
  {| OldSite.a_ok := true; OldSite.a_status := 200;
     OldSite.a_statusText := js "OK";
     OldSite.a_json := Return (val d);
     OldSite.a_arrayBuffer := Return [];
     OldSite.a_text := Return [] |}.

Definition old_not_found : OldSite.Answer :=
  {| OldSite.a_ok := false; OldSite.a_status := 404;
     OldSite.a_statusText := js "Not Found";
     OldSite.a_json := Throw (Rejected (js "Unexpected token"));
     OldSite.a_arrayBuffer := Return [];
     OldSite.a_text := Return [] |}.

Definition old_image : OldSite.Answer :=
  {| OldSite.a_ok := true; OldSite.a_status := 200;
     OldSite.a_statusText := js "OK";
     OldSite.a_json := Throw (Rejected (js "Unexpected token"));
     OldSite.a_arrayBuffer := Return Samples.image_bytes;
     OldSite.a_text := Return [] |}.

(** The old API answers with [d]; every other request gets [other]. *)
Definition old_net (d : OldSite.RandomMeme) (other : OldSite.Answer)
  : OldSite.Net :=
  fun _ r =>
    if Samples.str_eqb (url r) OldSite.api_url then Return (old_answer d)
    else Return other.

(** A meme with a relative image path and a relative page path. *)
Definition old_meme : OldSite.RandomMeme :=
  {| OldSite.meme_url := val (js "/meme/42");
     OldSite.meme_image := val {| OldSite.img_url := val (js "img/42.jpg") |} |}.

Definition old_meme_without_image : OldSite.RandomMeme :=
  {| OldSite.meme_url := val (js "/meme/42");
     OldSite.meme_image := undefined |}.

(** An entry of the listing without alt text, description or title. *)
Definition bare_meme : SnaggMeme :=
  {| title := val []; slug := val (js "bare");
     description := null;
     image_url := val (js "https://cdn.snagg.meme/original.webp");
     tags := val []; alt_text := undefined; ai_alt_text := undefined;
     watermarked_image_url := undefined |}.

End MoreSamples.


(** * Properties *)

Ltac run_js :=
  cbv beta iota delta [bind try_catch ret throw await fetch detectFacets
                       uploadBlob agent_post].

(** ** The two strategies *)

Section Strategies.
Context {RT : Runtime}.
Variable cfg : SnaggConfig.

Lemma generate_request_is_not_random :
  Unified.generate_request cfg <> Unified.random_request cfg.
Proof.
  intro E. apply (f_equal method) in E. discriminate E.
Qed.

Lemma generate_success_run w h r buf top bottom template :
  generate_success cfg w h r buf top bottom template ->
  Unified.fetchGeneratedMeme cfg w h
  = (Return (Some (generated_record r buf top bottom template)),
     h ++ [EvFetch (Unified.generate_request cfg)]).
Proof.
  intros (Hf & Hok & Hbuf & Ht & Hb & Hn).
  unfold Unified.fetchGeneratedMeme. run_js.
  rewrite Hf, Hok. cbn [negb]. rewrite Hbuf, Ht, Hb, Hn. reflexivity.
Qed.

Lemma generate_failure_run w h :
  generate_failure cfg w h ->
  Unified.fetchGeneratedMeme cfg w h
  = (Return None, h ++ [EvFetch (Unified.generate_request cfg)]).
Proof.
  intros F. unfold Unified.fetchGeneratedMeme. run_js.
  destruct F as [e Hf | r Hf Hok | r e Hf Hok Hbuf | r name e Hf Hok Hin Hd];
    rewrite Hf; try rewrite Hok; cbn [negb].
  - reflexivity.
  - destruct (resp_text r); reflexivity.
  - rewrite Hbuf. reflexivity.
  - destruct (resp_arrayBuffer r); [| reflexivity].
    cbn [In caption_headers] in Hin.
    destruct Hin as [<- | [<- | [<- | []]]].
    + rewrite Hd. reflexivity.
    + destruct (decodeURIComponent
                  (or_str (headers_get r (js "X-Meme-Top-Text")) []));
        [rewrite Hd |]; reflexivity.
    + destruct (decodeURIComponent
                  (or_str (headers_get r (js "X-Meme-Top-Text")) []));
        [| reflexivity].
      destruct (decodeURIComponent
                  (or_str (headers_get r (js "X-Meme-Bottom-Text")) []));
        [rewrite Hd |]; reflexivity.
Qed.

(** Every answer of the generation endpoint is a success or a failure. *)
Lemma generate_cases w h :
  generate_failure cfg w h
  \/ exists r buf top bottom template,
       generate_success cfg w h r buf top bottom template.
Proof.
  destruct (w_fetch w h (Unified.generate_request cfg)) as [r | e] eqn:Hf;
    [| left; eapply gen_network_error; eassumption].
  destruct (ok r) eqn:Hok; [| left; eapply gen_not_ok; eassumption].
  destruct (resp_arrayBuffer r) as [buf | e] eqn:Hbuf;
    [| left; eapply gen_unreadable_body; eassumption].
  destruct (decodeURIComponent
              (or_str (headers_get r (js "X-Meme-Top-Text")) []))
    as [top | e] eqn:Ht;
    [| left; eapply gen_malformed_header with (name := js "X-Meme-Top-Text");
       eauto; cbn; auto].
  destruct (decodeURIComponent
              (or_str (headers_get r (js "X-Meme-Bottom-Text")) []))
    as [bottom | e] eqn:Hb;
    [| left; eapply gen_malformed_header with (name := js "X-Meme-Bottom-Text");
       eauto; cbn; auto].
  destruct (decodeURIComponent
              (or_str (headers_get r (js "X-Meme-Template")) []))
    as [template | e] eqn:Hn;
    [| left; eapply gen_malformed_header with (name := js "X-Meme-Template");
       eauto; cbn; auto].
  right. exists r, buf, top, bottom, template. repeat split; assumption.
Qed.

Lemma random_success_run w h meme ir buf :
  random_success cfg w h meme ir buf ->
  Unified.fetchRandomMeme cfg w h
  = (Return (Some (random_record meme ir buf)),
     h ++ [EvFetch (Unified.random_request cfg);
           EvFetch (Unified.image_request (image_url meme))]).
Proof.
  intros (r & json & rest & Hf & Hok & Hj & Hl & Hi & Hiok & Hbuf).
  unfold Unified.fetchRandomMeme. run_js.
  rewrite Hf, Hok. cbn [negb]. rewrite Hj, Hl.
  unfold after_listing in Hi. rewrite Hi, Hiok. cbn [negb]. rewrite Hbuf.
  rewrite <- app_assoc. reflexivity.
Qed.

Lemma random_failure_run w h :
  random_failure cfg w h ->
  exists rest,
    Unified.fetchRandomMeme cfg w h
    = (Return None, h ++ EvFetch (Unified.random_request cfg) :: rest).
Proof.
  intros F. unfold Unified.fetchRandomMeme. run_js.
  destruct F as [e Hf | r Hf Hok | r e Hf Hok Hj | r json Hf Hok Hj Hl
                | first (r & json & rest & Hf & Hok & Hj & Hl) Hnull
                | meme e (r & json & rest & Hf & Hok & Hj & Hl) Hi
                | meme ir (r & json & rest & Hf & Hok & Hj & Hl) Hi Hiok
                | meme ir e (r & json & rest & Hf & Hok & Hj & Hl) Hi Hiok Hbuf];
    rewrite Hf; try rewrite Hok; cbn [negb]; try rewrite Hj; try rewrite Hl;
    try (unfold after_listing in Hi; rewrite Hi);
    try rewrite Hiok; cbn [negb]; try rewrite Hbuf.
  - exists []. reflexivity.
  - exists []. reflexivity.
  - exists []. reflexivity.
  - exists []. destruct Hl as [-> | [-> | ->]]; reflexivity.
  - exists []. destruct first; [reflexivity | reflexivity | discriminate].
  - eexists. rewrite <- app_assoc. reflexivity.
  - eexists. rewrite <- app_assoc. reflexivity.
  - eexists. rewrite <- app_assoc. reflexivity.
Qed.

(** Every answer of the listing endpoint and of the image host is a
    success or a failure. *)
Lemma random_cases w h :
  random_failure cfg w h
  \/ exists meme ir buf, random_success cfg w h meme ir buf.
Proof.
  destruct (w_fetch w h (Unified.random_request cfg)) as [r | e] eqn:Hf;
    [| left; eapply rnd_network_error; eassumption].
  destruct (ok r) eqn:Hok; [| left; eapply rnd_not_ok; eassumption].
  destruct (resp_json r) as [json | e] eqn:Hj;
    [| left; eapply rnd_unparseable_body; eassumption].
  destruct (Unified.listing json) as [ | | [| first rest]] eqn:Hl;
    try (left; eapply rnd_empty_listing; eauto; fail).
  assert (L : listed cfg w h first) by (exists r, json, rest; auto).
  destruct first as [ | | meme];
    try (left; eapply rnd_null_entry; [exact L | reflexivity]).
  destruct (w_fetch w (after_listing cfg h)
              (Unified.image_request (image_url meme))) as [ir | e] eqn:Hi;
    [| left; eapply rnd_image_network_error; eassumption].
  destruct (ok ir) eqn:Hiok;
    [| left; eapply rnd_image_not_ok; eassumption].
  destruct (resp_arrayBuffer ir) as [buf | e] eqn:Hbuf;
    [| left; eapply rnd_image_unreadable; eassumption].
  right. exists meme, ir, buf, r, json, rest. repeat split; assumption.
Qed.

End Strategies.

(** ** The earlier variants *)

Section Variants.
Context {RT : Runtime}.
Variable cfg : SnaggConfig.

Lemma generate_only_success w h r buf top bottom template :
  generate_success cfg w h r buf top bottom template ->
  GenerateOnly.getPostText cfg w h
  = (Return (generated_record_v1 buf top bottom template),
     h ++ [EvFetch (Unified.generate_request cfg)]).
Proof.
  intros (Hf & Hok & Hbuf & Ht & Hb & Hn).
  unfold GenerateOnly.getPostText. run_js.
  rewrite Hf, Hok. cbn [negb]. rewrite Hbuf, Ht, Hb, Hn. reflexivity.
Qed.

Lemma generate_only_failure w h :
  generate_failure cfg w h ->
  GenerateOnly.getPostText cfg w h
  = (Return (text_only_record GenerateOnly.fallback_text),
     h ++ [EvFetch (Unified.generate_request cfg)]).
Proof.
  intros F. unfold GenerateOnly.getPostText. run_js.
  destruct F as [e Hf | r Hf Hok | r e Hf Hok Hbuf | r name e Hf Hok Hin Hd];
    rewrite Hf; try rewrite Hok; cbn [negb].
  - reflexivity.
  - destruct (resp_text r); reflexivity.
  - rewrite Hbuf. reflexivity.
  - destruct (resp_arrayBuffer r); [| reflexivity].
    cbn [In caption_headers] in Hin.
    destruct Hin as [<- | [<- | [<- | []]]].
    + rewrite Hd. reflexivity.
    + destruct (decodeURIComponent
                  (or_str (headers_get r (js "X-Meme-Top-Text")) []));
        [rewrite Hd |]; reflexivity.
    + destruct (decodeURIComponent
                  (or_str (headers_get r (js "X-Meme-Top-Text")) []));
        [| reflexivity].
      destruct (decodeURIComponent
                  (or_str (headers_get r (js "X-Meme-Bottom-Text")) []));
        [rewrite Hd |]; reflexivity.
Qed.

Lemma link_parsed_run w h meme :
  link_parsed cfg w h meme ->
  RandomLink.getPostText cfg w h
  = (Return (RandomLink.meme_record meme),
     h ++ [EvFetch (RandomLink.random_request cfg)]).
Proof.
  intros (r & json & d & rest & Hf & Hok & Hj & He & Hd & Hm).
  unfold RandomLink.getPostText. run_js.
  rewrite Hf, Hok. cbn [negb]. rewrite Hj, He, Hd, Hm. reflexivity.
Qed.

(** The single-request variant answers with the first entry's record or
    with the fixed text, and issues exactly one request. *)
Lemma link_cases w h :
  (exists meme, link_parsed cfg w h meme)
  \/ RandomLink.getPostText cfg w h
     = (Return (text_only_record RandomLink.fallback_text),
        h ++ [EvFetch (RandomLink.random_request cfg)]).
Proof.
  unfold RandomLink.getPostText. run_js.
  destruct (w_fetch w h (RandomLink.random_request cfg)) as [r | e] eqn:Hf;
    [| right; reflexivity].
  destruct (ok r) eqn:Hok; cbn [negb]; [| right; reflexivity].
  destruct (resp_json r) as [[ | | json] | e] eqn:Hj;
    try (right; reflexivity).
  destruct (truthy (error json)) eqn:He; [right; reflexivity |].
  destruct (data json) as [ | | d] eqn:Hd; try (right; reflexivity).
  destruct (memes d) as [ | | [| [ | | meme] rest]] eqn:Hm;
    try (right; reflexivity).
  left. exists meme, r, json, d, rest. repeat split; assumption.
Qed.

End Variants.

(** ** The fallback chain *)

Section Resolver.
Context {RT : Runtime}.
Variable cfg : SnaggConfig.

(** C1.  [getPostText] runs the generate strategy first: its request is
    the first effect, whatever the world answers.  When that strategy
    returns a record, [getPostText] returns it at once and the history
    holds the generate request alone, so the listing request of the random
    strategy was never issued.  Only when it returns [null] does the
    random strategy run, starting from the history the generate strategy
    left, and its listing request comes second; its record, or else the
    fixed text, is the result. *)
Theorem getPostText_generate_then_random (w : World) (h : History) :
  let gen := EvFetch (Unified.generate_request cfg) in
  let rnd := EvFetch (Unified.random_request cfg) in
  exists generated,
    Unified.fetchGeneratedMeme cfg w h = (Return generated, h ++ [gen])
    /\ match generated with
       | Some d =>
           Unified.getPostText cfg w h = (Return d, h ++ [gen])
           /\ ~ In rnd [gen]
       | None =>
           exists random rest,
             Unified.fetchRandomMeme cfg w (h ++ [gen])
             = (Return random, (h ++ [gen]) ++ rnd :: rest)
             /\ Unified.getPostText cfg w h
                = (Return match random with
                          | Some d => d
                          | None => text_only_record Unified.fallback_text
                          end,
                   h ++ gen :: rnd :: rest)
       end.
Proof.
  intros gen rnd. subst gen rnd.
  destruct (generate_cases cfg w h)
    as [F | (r & buf & top & bottom & template & S)].
  - exists None. pose proof (generate_failure_run cfg w h F) as Eg.
    split; [exact Eg |].
    destruct (random_cases cfg w (h ++ [EvFetch (Unified.generate_request cfg)]))
      as [F' | (meme & ir & buf & S')].
    + destruct (random_failure_run cfg w _ F') as (rest & Er).
      exists None, rest. split; [exact Er |].
      unfold Unified.getPostText. run_js. rewrite Eg. cbv beta iota.
      rewrite Er. rewrite <- app_assoc. reflexivity.
    + pose proof (random_success_run cfg w _ meme ir buf S') as Er.
      exists (Some (random_record meme ir buf)),
             [EvFetch (Unified.image_request (image_url meme))].
      split; [exact Er |].
      unfold Unified.getPostText. run_js. rewrite Eg. cbv beta iota.
      rewrite Er. rewrite <- app_assoc. reflexivity.
  - exists (Some (generated_record r buf top bottom template)).
    pose proof (generate_success_run cfg w h r buf top bottom template S) as Eg.
    split; [exact Eg |]. split.
    + unfold Unified.getPostText. run_js. rewrite Eg. reflexivity.
    + intros [E | []]. discriminate E.
Qed.

(** C5.  When the generate strategy and then the random strategy both
    return [null], [getPostText] returns, without throwing, the record
    whose only property is [text], equal to the fixed string
    "Check out snagg.meme for fresh memes! " followed by U+1F525; no media
    property is set. *)
Theorem getPostText_exhausted (w : World) (h h1 h2 : History) :
  Unified.fetchGeneratedMeme cfg w h = (Return None, h1) ->
  Unified.fetchRandomMeme cfg w h1 = (Return None, h2) ->
  exists d,
    Unified.getPostText cfg w h = (Return d, h2)
    /\ text d = js "Check out snagg.meme for fresh memes! " ++ utf16 128293
    /\ d = text_only_record (text d)
    /\ text_only d = true
    /\ no_media d = true.
Proof.
  intros Eg Er. exists (text_only_record Unified.fallback_text).
  split.
  - unfold Unified.getPostText. run_js. rewrite Eg. cbv beta iota.
    rewrite Er. reflexivity.
  - repeat split.
Qed.

(** C6.  Neither strategy lets an exception out: whatever the world
    answers, [fetchGeneratedMeme] and [fetchRandomMeme] return, a record
    or [null].  They return [null] on every failure: a network error, a
    non-2xx answer, a body that cannot be read or parsed, a caption header
    that cannot be decoded, a listing that is missing or empty or whose
    first entry is null, and an image that cannot be downloaded. *)
Theorem strategies_fail_with_null (w : World) (h : History) :
  (exists o, fst (Unified.fetchGeneratedMeme cfg w h) = Return o)
  /\ (exists o, fst (Unified.fetchRandomMeme cfg w h) = Return o)
  /\ (generate_failure cfg w h ->
      fst (Unified.fetchGeneratedMeme cfg w h) = Return None)
  /\ (random_failure cfg w h ->
      fst (Unified.fetchRandomMeme cfg w h) = Return None).
Proof.
  assert (G : generate_failure cfg w h ->
              fst (Unified.fetchGeneratedMeme cfg w h) = Return None).
  { intros F. rewrite (generate_failure_run cfg w h F). reflexivity. }
  assert (R : random_failure cfg w h ->
              fst (Unified.fetchRandomMeme cfg w h) = Return None).
  { intros F. destruct (random_failure_run cfg w h F) as (rest & E).
    rewrite E. reflexivity. }
  repeat split; try assumption.
  - destruct (generate_cases cfg w h)
      as [F | (r & buf & top & bottom & template & S)].
    + exists None. auto.
    + eexists. rewrite (generate_success_run cfg w h _ _ _ _ _ S). reflexivity.
  - destruct (random_cases cfg w h) as [F | (meme & ir & buf & S)].
    + exists None. auto.
    + eexists. rewrite (random_success_run cfg w h _ _ _ S). reflexivity.
Qed.

(** A strategy returns [null] only on one of these failures. *)
Lemma null_only_on_failure (w : World) (h : History) :
  (fst (Unified.fetchGeneratedMeme cfg w h) = Return None ->
   generate_failure cfg w h)
  /\ (fst (Unified.fetchRandomMeme cfg w h) = Return None ->
      random_failure cfg w h).
Proof.
  split; intros E.
  - destruct (generate_cases cfg w h)
      as [F | (r & buf & top & bottom & template & S)]; [exact F |].
    rewrite (generate_success_run cfg w h _ _ _ _ _ S) in E. discriminate E.
  - destruct (random_cases cfg w h) as [F | (meme & ir & buf & S)];
      [exact F |].
    rewrite (random_success_run cfg w h _ _ _ S) in E. discriminate E.
Qed.

End Resolver.

(** ** What the records contain *)

Section Records.
Context {RT : Runtime}.
Variable cfg : SnaggConfig.

Lemma caption_text_cases (top bottom : jsstring) :
  (top <> [] -> bottom <> [] ->
   Unified.caption_text top bottom = top ++ js " / " ++ bottom)
  /\ (top <> [] -> bottom = [] -> Unified.caption_text top bottom = top)
  /\ (top = [] -> bottom <> [] -> Unified.caption_text top bottom = bottom)
  /\ (top = [] -> bottom = [] ->
      Unified.caption_text top bottom = js "Fresh meme from snagg.meme " ++ fire).
Proof.
  unfold Unified.caption_text.
  destruct top as [| a top], bottom as [| b bottom]; cbn [str_truthy andb orb];
    repeat split; intros; try reflexivity; congruence.
Qed.

(** C7.  When the generation endpoint answers 2xx with a readable body and
    caption headers that percent-decode to [top] and [bottom], the
    strategy returns a record whose text is [top], " / ", [bottom] when
    both are non-empty, the non-empty one alone when exactly one is, and
    "Fresh meme from snagg.meme " followed by U+1F525 when neither is.  The
    generate-only variant of [getPostText] builds the same text. *)
Theorem generated_text_from_captions (w : World) (h : History)
    (r : Response) (buf : ArrayBuffer) (top bottom template : jsstring) :
  generate_success cfg w h r buf top bottom template ->
  exists d d',
    fst (Unified.fetchGeneratedMeme cfg w h) = Return (Some d)
    /\ fst (GenerateOnly.getPostText cfg w h) = Return d'
    /\ text d' = text d
    /\ (top <> [] -> bottom <> [] -> text d = top ++ js " / " ++ bottom)
    /\ (top <> [] -> bottom = [] -> text d = top)
    /\ (top = [] -> bottom <> [] -> text d = bottom)
    /\ (top = [] -> bottom = [] ->
        text d = js "Fresh meme from snagg.meme " ++ utf16 128293).
Proof.
  intros S.
  exists (generated_record r buf top bottom template),
         (generated_record_v1 buf top bottom template).
  rewrite (generate_success_run cfg w h _ _ _ _ _ S).
  rewrite (generate_only_success cfg w h _ _ _ _ _ S).
  split; [reflexivity |]. split; [reflexivity |]. split; [reflexivity |].
  exact (caption_text_cases top bottom).
Qed.

Lemma or_str_truthy (x : js_opt jsstring) (d : jsstring) :
  or_str x d = if truthy x then String_ x else d.
Proof. destruct x as [ | | [| c s]]; reflexivity. Qed.

(** The text of a random meme is the text the specification describes,
    for the title the code settles on. *)
Lemma random_text_spec (meme : SnaggMeme) :
  Unified.random_text meme
  = spec_random_text
      (or_str (title meme) (js "Fresh meme from snagg.meme"))
      (tags_of meme).
Proof.
  unfold Unified.random_text, Unified.first_tags, tags_of, spec_random_text.
  destruct (tags meme) as [ | | [| t l]]; reflexivity.
Qed.

Lemma strip_whitespace_clean (t : jsstring) :
  Forall (fun c => is_whitespace c = false) (strip_whitespace t).
Proof.
  unfold strip_whitespace. apply Forall_forall. intros c Hc.
  apply filter_In in Hc. destruct Hc as [_ Hc].
  destruct (is_whitespace c); [discriminate Hc | reflexivity].
Qed.

(** A hashtag is [#] and the tag's code units that are not whitespace. *)
Lemma hashtag_clean (t : jsstring) :
  exists body,
    Unified.hashtag t = 35 :: body
    /\ Forall (fun c => is_whitespace c = false) body
    /\ body = filter (fun c => negb (is_whitespace c)) t.
Proof.
  exists (strip_whitespace t). split; [reflexivity |].
  split; [apply strip_whitespace_clean | reflexivity].
Qed.

(** C8, as amended.  When the listing answers with a first entry and its
    image downloads, the strategy returns a record whose text is the
    entry's title, or "Fresh meme from snagg.meme" when the title is
    missing, null or empty, followed, when the entry has at least one tag,
    by a blank line and at most three tags, each with its whitespace
    removed and [#] in front, separated by single spaces; without tags the
    text is that title or default alone. *)
Theorem random_text_title_or_default (w : World) (h : History)
    (meme : SnaggMeme) (ir : Response) (buf : ArrayBuffer) :
  random_success cfg w h meme ir buf ->
  let shown := if truthy (title meme) then title_of meme
               else js "Fresh meme from snagg.meme" in
  exists d,
    fst (Unified.fetchRandomMeme cfg w h) = Return (Some d)
    /\ text d = spec_random_text shown (tags_of meme)
    /\ (tags_of meme = [] -> text d = shown)
    /\ (tags_of meme <> [] ->
        text d = shown ++ [LF; LF]
                 ++ join (js " ")
                      (map (fun t => js "#" ++ strip_whitespace t)
                           (firstn 3 (tags_of meme)))).
Proof.
  intros S shown. exists (random_record meme ir buf).
  rewrite (random_success_run cfg w h _ _ _ S).
  split; [reflexivity |].
  assert (E : text (random_record meme ir buf)
              = spec_random_text shown (tags_of meme)).
  { cbn [text random_record]. rewrite random_text_spec. f_equal.
    subst shown. unfold title_of.
    destruct (title meme) as [ | | [| c s]]; reflexivity. }
  split; [exact E |]. rewrite E. unfold spec_random_text.
  split; intros Ht; destruct (tags_of meme); congruence.
Qed.

(** The random strategy's order over [ai_alt_text], [description] and
    [title]; it ends in the title, whatever the title is. *)
Lemma random_alt_tiers (w : World) (h : History)
    (meme : SnaggMeme) (ir : Response) (buf : ArrayBuffer) :
  random_success cfg w h meme ir buf ->
  exists d,
    fst (Unified.fetchRandomMeme cfg w h) = Return (Some d)
    /\ (truthy (ai_alt_text meme) = true -> imageAlt d = ai_alt_text meme)
    /\ (truthy (ai_alt_text meme) = false ->
        truthy (description meme) = true ->
        imageAlt d = description meme)
    /\ (truthy (ai_alt_text meme) = false ->
        truthy (description meme) = false ->
        imageAlt d = title meme).
Proof.
  intros S. exists (random_record meme ir buf).
  rewrite (random_success_run cfg w h _ _ _ S).
  split; [reflexivity |].
  cbn [imageAlt random_record]. unfold Unified.random_alt, or_else.
  split; [| split].
  - intros Ha. rewrite Ha. cbv iota. rewrite Ha. reflexivity.
  - intros Ha Hd. rewrite Ha. cbv iota. rewrite Hd. reflexivity.
  - intros Ha Hd. rewrite Ha. cbv iota. rewrite Hd. reflexivity.
Qed.

(** The single-request variant has the same order over [alt_text],
    [description] and [title], and ends in a literal of its own. *)
Lemma link_alt_tier_order (meme : SnaggMeme) :
  let alt := RandomLink.meme_image_alt meme in
  (truthy (alt_text meme) = true -> val alt = alt_text meme)
  /\ (truthy (alt_text meme) = false ->
      truthy (description meme) = true -> val alt = description meme)
  /\ (truthy (alt_text meme) = false ->
      truthy (description meme) = false ->
      truthy (title meme) = true -> val alt = title meme)
  /\ (truthy (alt_text meme) = false ->
      truthy (description meme) = false ->
      truthy (title meme) = false -> alt = js "Meme from snagg.meme").
Proof.
  unfold RandomLink.meme_image_alt, or_else.
  split; [| split; [| split]].
  - intros Ha. rewrite Ha. cbv iota. rewrite Ha, or_str_truthy, Ha.
    destruct (alt_text meme) as [ | | s]; try discriminate Ha. reflexivity.
  - intros Ha Hd. rewrite Ha. cbv iota. rewrite Hd, or_str_truthy, Hd.
    destruct (description meme) as [ | | s]; try discriminate Hd.
    reflexivity.
  - intros Ha Hd Ht. rewrite Ha. cbv iota. rewrite Hd, or_str_truthy, Ht.
    destruct (title meme) as [ | | s]; try discriminate Ht. reflexivity.
  - intros Ha Hd Ht. rewrite Ha. cbv iota. rewrite Hd, or_str_truthy, Ht.
    reflexivity.
Qed.

(** C9, as amended.  The record's [imageAlt] is chosen in tiers, a tier
    being present when it is a non-empty string.  In the random strategy,
    when the listing answers with a first entry and its image downloads,
    it is the entry's [ai_alt_text] when present, otherwise its
    [description] when present, otherwise its [title].  In the
    single-request variant, when [/random] answers with a first entry, it
    is the entry's [alt_text] when present, otherwise its [description]
    when present, otherwise its [title] when present, and otherwise the
    literal "Meme from snagg.meme". *)
Theorem image_alt_tier_order (w : World) (h : History) :
  (forall meme ir buf,
      random_success cfg w h meme ir buf ->
      exists d,
        fst (Unified.fetchRandomMeme cfg w h) = Return (Some d)
        /\ (truthy (ai_alt_text meme) = true ->
            imageAlt d = ai_alt_text meme)
        /\ (truthy (ai_alt_text meme) = false ->
            truthy (description meme) = true ->
            imageAlt d = description meme)
        /\ (truthy (ai_alt_text meme) = false ->
            truthy (description meme) = false ->
            imageAlt d = title meme))
  /\ (forall meme,
        link_parsed cfg w h meme ->
        exists d,
          fst (RandomLink.getPostText cfg w h) = Return d
          /\ (truthy (alt_text meme) = true -> imageAlt d = alt_text meme)
          /\ (truthy (alt_text meme) = false ->
              truthy (description meme) = true ->
              imageAlt d = description meme)
          /\ (truthy (alt_text meme) = false ->
              truthy (description meme) = false ->
              truthy (title meme) = true ->
              imageAlt d = title meme)
          /\ (truthy (alt_text meme) = false ->
              truthy (description meme) = false ->
              truthy (title meme) = false ->
              imageAlt d = val (js "Meme from snagg.meme"))).
Proof.
  split.
  - intros meme ir buf S. exact (random_alt_tiers w h meme ir buf S).
  - intros meme P. exists (RandomLink.meme_record meme).
    rewrite (link_parsed_run cfg w h meme P).
    split; [reflexivity |].
    cbn [imageAlt RandomLink.meme_record].
    destruct (link_alt_tier_order meme) as (T1 & T2 & T3 & T4).
    cbv zeta in T1, T2, T3, T4.
    split; [exact T1 |]. split; [exact T2 |]. split; [exact T3 |].
    intros Ha Hd Ht. rewrite (T4 Ha Hd Ht). reflexivity.
Qed.

(** C10.  In the single-request variant, when [/random] answers with a
    first entry, the record's [imageUrl] is the entry's
    [watermarked_image_url] when that is a non-empty string, and its
    [image_url] otherwise. *)
Theorem link_image_url_prefers_watermark (w : World) (h : History)
    (meme : SnaggMeme) :
  link_parsed cfg w h meme ->
  exists d,
    fst (RandomLink.getPostText cfg w h) = Return d
    /\ (truthy (watermarked_image_url meme) = true ->
        imageUrl d = watermarked_image_url meme)
    /\ (truthy (watermarked_image_url meme) = false ->
        imageUrl d = image_url meme).
Proof.
  intros P. exists (RandomLink.meme_record meme).
  rewrite (link_parsed_run cfg w h meme P).
  split; [reflexivity |].
  cbn [imageUrl RandomLink.meme_record].
  unfold RandomLink.meme_image_url, or_else.
  split; intros Hw; rewrite Hw; reflexivity.
Qed.

Lemma text_only_record_invariant (t : jsstring) :
  record_invariant (text_only_record t).
Proof. split; [reflexivity | split; reflexivity]. Qed.

Lemma buffered_record_invariant (d : PostData) :
  is_set (imageBuffer d) = true ->
  is_set (imageUrl d) = false ->
  record_invariant d.
Proof.
  intros Hb Hu. unfold record_invariant, text_only, no_media.
  rewrite Hb, Hu. cbn. split; [reflexivity | split; intros E; discriminate E].
Qed.

Lemma linked_record_invariant (meme : SnaggMeme) :
  record_invariant (RandomLink.meme_record meme).
Proof.
  unfold record_invariant, text_only, no_media. cbn.
  split; [reflexivity |].
  rewrite !andb_false_r. cbn. split; intros E; discriminate E.
Qed.

(** C4.  Every record a fetch operation returns satisfies the invariant of
    the data model: [imageBuffer] and [imageUrl] are never both set (a
    link may accompany either), and the record has [text] as its only
    property exactly when none of [imageBuffer], [imageUrl] and
    [externalUrl] is set.  The two strategies return such a record or
    [null]; the three variants of [getPostText] always return one. *)
Theorem fetched_records_keep_invariant (w : World) (h : History) :
  (exists o, fst (Unified.fetchGeneratedMeme cfg w h) = Return o
             /\ match o with Some d => record_invariant d | None => True end)
  /\ (exists o, fst (Unified.fetchRandomMeme cfg w h) = Return o
                /\ match o with Some d => record_invariant d | None => True end)
  /\ (exists d, fst (Unified.getPostText cfg w h) = Return d
                /\ record_invariant d)
  /\ (exists d, fst (GenerateOnly.getPostText cfg w h) = Return d
                /\ record_invariant d)
  /\ (exists d, fst (RandomLink.getPostText cfg w h) = Return d
                /\ record_invariant d).
Proof.
  assert (G : forall h0,
    exists o, fst (Unified.fetchGeneratedMeme cfg w h0) = Return o
      /\ match o with Some d => record_invariant d | None => True end).
  { intros h0. destruct (generate_cases cfg w h0)
      as [F | (r & buf & top & bottom & template & S)].
    - exists None. rewrite (generate_failure_run cfg w h0 F). split; exact I || reflexivity.
    - eexists. rewrite (generate_success_run cfg w h0 _ _ _ _ _ S).
      split; [reflexivity |]. apply buffered_record_invariant; reflexivity. }
  assert (R : forall h0,
    exists o, fst (Unified.fetchRandomMeme cfg w h0) = Return o
      /\ match o with Some d => record_invariant d | None => True end).
  { intros h0. destruct (random_cases cfg w h0) as [F | (meme & ir & buf & S)].
    - exists None. destruct (random_failure_run cfg w h0 F) as (rest & E).
      rewrite E. split; exact I || reflexivity.
    - eexists. rewrite (random_success_run cfg w h0 _ _ _ S).
      split; [reflexivity |]. apply buffered_record_invariant; reflexivity. }
  split; [apply G |]. split; [apply R |]. split; [| split].
  - unfold Unified.getPostText. run_js.
    destruct (Unified.fetchGeneratedMeme cfg w h) as [og h1] eqn:Eg.
    destruct (G h) as (o & Eo & Io). rewrite Eg in Eo. cbn [fst] in Eo.
    subst og. destruct o as [d |].
    + exists d. split; [reflexivity | exact Io].
    + destruct (Unified.fetchRandomMeme cfg w h1) as [orr h2] eqn:Er.
      destruct (R h1) as (o & Eo & Io'). rewrite Er in Eo. cbn [fst] in Eo.
      subst orr. destruct o as [d |].
      * exists d. split; [reflexivity | exact Io'].
      * eexists. split; [reflexivity | apply text_only_record_invariant].
  - destruct (generate_cases cfg w h)
      as [F | (r & buf & top & bottom & template & S)].
    + eexists. rewrite (generate_only_failure cfg w h F).
      split; [reflexivity | apply text_only_record_invariant].
    + eexists. rewrite (generate_only_success cfg w h _ _ _ _ _ S).
      split; [reflexivity |]. apply buffered_record_invariant; reflexivity.
  - destruct (link_cases cfg w h) as [(meme & P) | E].
    + eexists. rewrite (link_parsed_run cfg w h meme P).
      split; [reflexivity | apply linked_record_invariant].
    + eexists. rewrite E.
      split; [reflexivity | apply text_only_record_invariant].
Qed.

End Records.

(** ** Post assembly *)

Section Assembly.
Context {RT : Runtime}.

Ltac flatten_history :=
  repeat rewrite <- app_assoc; cbn [app].

(** Every run of [Bot.post] hands at most one record to [agent.post], and
    its embed is the one the record's properties select. *)
Lemma post_submits (w : World) (d : PostData) (h : History) :
  exists added,
    snd (Bot.post d w h) = h ++ added
    /\ (submitted added = []
        \/ exists facets embed,
             submitted added = [post_record d facets embed]
             /\ w_detectFacets w h (text d) = Return facets
             /\ ((truthy (imageUrl d) = true
                  /\ exists uploaded,
                       image_resolved w d h uploaded
                       /\ embed = val (Bot.images_embed uploaded (imageAlt d)))
                 \/ (truthy (imageUrl d) = false
                     /\ truthy (externalUrl d) = true
                     /\ embed = val (Bot.external_embed d))
                 \/ (truthy (imageUrl d) = false
                     /\ truthy (externalUrl d) = false
                     /\ embed = undefined))).
Proof.
  unfold Bot.post. run_js.
  destruct (w_detectFacets w h (text d)) as [facets | e] eqn:Hd;
    [| exists [EvDetectFacets (text d)]; split; [reflexivity | left; reflexivity]].
  destruct (truthy (imageUrl d)) eqn:Hu.
  - destruct (w_fetch w (h ++ [EvDetectFacets (text d)])
                (Bot.image_request (imageUrl d))) as [ir | e] eqn:Hf;
      [| eexists; split; [cbn [snd]; flatten_history; reflexivity
                         | left; reflexivity]].
    destruct (ok ir) eqn:Hok; cbn [negb];
      [| eexists; split; [cbn [snd]; flatten_history; reflexivity
                         | left; reflexivity]].
    destruct (resp_arrayBuffer ir) as [buf | e] eqn:Hb;
      [| eexists; split; [cbn [snd]; flatten_history; reflexivity
                         | left; reflexivity]].
    match goal with
    | |- context [w_uploadBlob w ?hh ?b] =>
        destruct (w_uploadBlob w hh b) as [uploaded | e] eqn:Hup
    end;
      [| eexists; split; [cbn [snd]; flatten_history; reflexivity
                         | left; reflexivity]].
    eexists. split.
    + match goal with
      | |- context [w_post w ?hh ?r] => destruct (w_post w hh r)
      end; cbn [snd]; flatten_history; reflexivity.
    + right. exists facets, (val (Bot.images_embed uploaded (imageAlt d))).
      split; [reflexivity |]. split; [reflexivity |]. left.
      split; [reflexivity |]. exists uploaded. split; [| reflexivity].
      exists ir, buf. repeat split; assumption.
  - destruct (truthy (externalUrl d)) eqn:He.
    + eexists. split.
      * match goal with
        | |- context [w_post w ?hh ?r] => destruct (w_post w hh r)
        end; cbn [snd]; flatten_history; reflexivity.
      * right. exists facets, (val (Bot.external_embed d)).
        split; [reflexivity |]. split; [reflexivity |].
        right; left. auto.
    + eexists. split.
      * match goal with
        | |- context [w_post w ?hh ?r] => destruct (w_post w hh r)
        end; cbn [snd]; flatten_history; reflexivity.
      * right. exists facets, undefined.
        split; [reflexivity |]. split; [reflexivity |].
        right; right. auto.
Qed.

Lemma post_run_image (w : World) (d : PostData) (h : History)
    (facets : Facets) (uploaded : BlobRef) :
  w_detectFacets w h (text d) = Return facets ->
  truthy (imageUrl d) = true ->
  image_resolved w d h uploaded ->
  exists before,
    Bot.post d w h
    = (w_post w (h ++ before)
         (post_record d facets (val (Bot.images_embed uploaded (imageAlt d)))),
       h ++ before
         ++ [EvPost (post_record d facets
                       (val (Bot.images_embed uploaded (imageAlt d))))])
    /\ submitted before = [].
Proof.
  intros Hd Hu (ir & buf & Hf & Hok & Hb & Hup).
  unfold after_image, after_facets, image_blob in *.
  exists [EvDetectFacets (text d); EvFetch (Bot.image_request (imageUrl d));
          EvUploadBlob (image_blob ir buf)].
  split; [| reflexivity].
  unfold Bot.post. run_js. rewrite Hd, Hu, Hf, Hok. cbn [negb].
  rewrite Hb, Hup. unfold image_blob. flatten_history.
  destruct (w_post w _ _); reflexivity.
Qed.

Lemma post_run_no_image (w : World) (d : PostData) (h : History)
    (facets : Facets) :
  w_detectFacets w h (text d) = Return facets ->
  truthy (imageUrl d) = false ->
  let embed := if truthy (externalUrl d)
               then val (Bot.external_embed d) else undefined in
  Bot.post d w h
  = (w_post w (h ++ [EvDetectFacets (text d)]) (post_record d facets embed),
     h ++ [EvDetectFacets (text d); EvPost (post_record d facets embed)]).
Proof.
  intros Hd Hu embed. subst embed.
  unfold Bot.post. run_js. rewrite Hd, Hu.
  destruct (truthy (externalUrl d)); flatten_history;
    destruct (w_post w _ _); reflexivity.
Qed.

(** C2.  When the record names an image ([imageUrl] is a non-empty string)
    and the image cannot be resolved, because its request fails or is
    answered non-2xx, its body cannot be read, or the upload of the blob
    fails, [Bot.post] throws to its caller and hands no record to
    [agent.post]: nothing is posted, text-only or otherwise. *)
Theorem post_image_failure_propagates (w : World) (d : PostData)
    (h : History) :
  truthy (imageUrl d) = true ->
  image_unresolved w d h ->
  exists e added,
    Bot.post d w h = (Throw e, h ++ added)
    /\ submitted added = [].
Proof.
  intros Hu U. unfold Bot.post. run_js.
  destruct (w_detectFacets w h (text d)) as [facets | e0] eqn:Hd;
    [| exists e0, [EvDetectFacets (text d)]; split; reflexivity].
  rewrite Hu.
  destruct U as [e Hf | ir Hf Hok | ir e Hf Hok Hb | ir buf e Hf Hok Hb Hup];
    unfold after_image, after_facets, image_blob in *;
    rewrite Hf; try rewrite Hok; cbn [negb]; try rewrite Hb;
    try rewrite Hup; flatten_history;
    eexists; eexists; split; reflexivity.
Qed.

(** The exception is the one the failure raised: an [Error] naming the
    status text for a non-2xx answer, the rejection itself otherwise. *)
Lemma post_image_failure_cause (w : World) (d : PostData) (h : History)
    (facets : Facets) :
  w_detectFacets w h (text d) = Return facets ->
  truthy (imageUrl d) = true ->
  (forall ir,
      w_fetch w (after_facets d h) (Bot.image_request (imageUrl d)) = Return ir ->
      ok ir = false ->
      fst (Bot.post d w h)
      = Throw (Error (js "Failed to fetch image: " ++ statusText ir)))
  /\ (forall ir buf e,
        w_fetch w (after_facets d h) (Bot.image_request (imageUrl d)) = Return ir ->
        ok ir = true ->
        resp_arrayBuffer ir = Return buf ->
        w_uploadBlob w (after_image d h) (image_blob ir buf) = Throw e ->
        fst (Bot.post d w h) = Throw e).
Proof.
  intros Hd Hu. unfold after_image, after_facets, image_blob.
  split.
  - intros ir Hf Hok. unfold Bot.post. run_js.
    rewrite Hd, Hu, Hf, Hok. reflexivity.
  - intros ir buf e Hf Hok Hb Hup. unfold Bot.post. run_js.
    rewrite Hd, Hu, Hf, Hok. cbn [negb]. rewrite Hb, Hup. reflexivity.
Qed.

Lemma images_embed_one_variant (uploaded : BlobRef) (a : js_opt jsstring) :
  one_variant (Bot.images_embed uploaded a).
Proof. left. repeat split. Qed.

Lemma external_embed_one_variant (d : PostData) :
  one_variant (Bot.external_embed d).
Proof. right. repeat split. Qed.

Lemma text_only_is_falsy (d : PostData) :
  text_only d = true ->
  truthy (imageUrl d) = false /\ truthy (externalUrl d) = false.
Proof.
  unfold text_only. intros T.
  destruct (imageUrl d), (externalUrl d); cbn in *;
    rewrite ?andb_false_r in T; cbn in T;
    try discriminate T; split; reflexivity.
Qed.

(** C3.  [Bot.post] hands at most one record to [agent.post].  Its embed
    is either absent or an object of exactly one variant.  It is the
    images embed whenever [imageUrl] is a non-empty string, also when
    [externalUrl] is one too; it is absent for a record whose only
    property is [text].  When the facets are detected, the record is
    handed over with the embed the properties select: the uploaded image
    when [imageUrl] is set and resolves, else the link card when
    [externalUrl] is set, else none. *)
Theorem post_attaches_one_embed (w : World) (d : PostData) (h : History) :
  exists added,
    snd (Bot.post d w h) = h ++ added
    /\ (List.length (submitted added) <= 1)%nat
    /\ (forall r, In r (submitted added) ->
          (record_embed r = undefined
           \/ exists e, record_embed r = val e /\ one_variant e)
          /\ (truthy (imageUrl d) = true -> is_images_embed (record_embed r))
          /\ (text_only d = true -> record_embed r = undefined))
    /\ (forall facets,
          w_detectFacets w h (text d) = Return facets ->
          (forall uploaded,
              truthy (imageUrl d) = true ->
              image_resolved w d h uploaded ->
              submitted added
              = [post_record d facets
                   (val (Bot.images_embed uploaded (imageAlt d)))])
          /\ (truthy (imageUrl d) = false ->
              truthy (externalUrl d) = true ->
              submitted added
              = [post_record d facets (val (Bot.external_embed d))])
          /\ (text_only d = true
              \/ (truthy (imageUrl d) = false
                  /\ truthy (externalUrl d) = false) ->
              submitted added = [post_record d facets undefined])).
Proof.
  destruct (post_submits w d h) as (added & Hs & Hsub).
  exists added. split; [exact Hs |]. split; [| split].
  - destruct Hsub as [-> | (f & e & -> & _)]; cbn; lia.
  - intros r Hr.
    destruct Hsub as [E | (f & e & E & _ & Hsel)]; rewrite E in Hr;
      [destruct Hr |].
    destruct Hr as [<- | []]. cbn [record_embed post_record].
    destruct Hsel as [(Hu & up & _ & ->) | [(Hu & He & ->) | (Hu & He & ->)]].
    + split; [right; eexists; split;
              [reflexivity | apply images_embed_one_variant] |].
      split.
      * intros _. eexists. repeat split.
      * intros T. apply text_only_is_falsy in T. destruct T as [T _].
        congruence.
    + split; [right; eexists; split;
              [reflexivity | apply external_embed_one_variant] |].
      split.
      * intros Hu'. congruence.
      * intros T. apply text_only_is_falsy in T. destruct T as [_ T].
        congruence.
    + split; [left; reflexivity |]. split.
      * intros Hu'. congruence.
      * reflexivity.
  - intros facets Hd.
    assert (A : forall before r o,
               Bot.post d w h = (o, h ++ before ++ [EvPost r]) ->
               submitted before = [] -> submitted added = [r]).
    { intros before r o E B. rewrite E in Hs. cbn [snd] in Hs.
      apply app_inv_head in Hs. subst added.
      clear - B. induction before as [| ev before IH]; [reflexivity |].
      destruct ev; cbn in *; try discriminate B; auto. }
    split; [| split].
    + intros uploaded Hu R.
      destruct (post_run_image w d h facets uploaded Hd Hu R)
        as (before & E & B).
      exact (A _ _ _ E B).
    + intros Hu He. pose proof (post_run_no_image w d h facets Hd Hu) as E.
      cbv zeta in E. rewrite He in E.
      exact (A [EvDetectFacets (text d)] _ _ E eq_refl).
    + intros T.
      assert (Hu : truthy (imageUrl d) = false
                   /\ truthy (externalUrl d) = false).
      { destruct T as [T | T]; [apply text_only_is_falsy |]; exact T. }
      destruct Hu as [Hu He].
      pose proof (post_run_no_image w d h facets Hd Hu) as E.
      cbv zeta in E. rewrite He in E.
      exact (A [EvDetectFacets (text d)] _ _ E eq_refl).
Qed.

End Assembly.

(** ** The properties at the sample worlds *)

Section Examples.
Import Samples.

(** The image host answers 404: [Bot.post] throws and posts nothing. *)
Lemma post_image_failure_propagates_witness :
  exists e added,
    Bot.post linked_record
      (link_world test_meme not_found (Return blob_ref)) []
    = (Throw e, [] ++ added)
    /\ submitted added = [].
Proof.
  apply (post_image_failure_propagates
           (link_world test_meme not_found (Return blob_ref))
           linked_record []).
  - reflexivity.
  - apply img_not_ok with (ir := not_found); reflexivity.
Defined.

(** The upload is rejected: the rejection reaches the caller. *)
Example post_upload_failure_throws :
  Bot.post linked_record
    (link_world test_meme (image_response [])
                (Throw (Rejected (js "upload failed")))) []
  = (Throw (Rejected (js "upload failed")),
     [EvDetectFacets (js "Test Meme");
      EvFetch watermarked_image;
      EvUploadBlob {| blob_parts := image_bytes;
                      blob_type := js "image/jpeg" |}]).
Proof. reflexivity. Qed.

(** A record with an image URL and a link: the image is embedded. *)
Lemma post_attaches_one_embed_witness :
  exists added,
    snd (Bot.post linked_record
           (link_world test_meme (image_response []) (Return blob_ref)) [])
    = [] ++ added
    /\ submitted added
       = [post_record linked_record []
            (val (Bot.images_embed blob_ref (val (js "Description"))))]
    /\ truthy (externalUrl linked_record) = true.
Proof.
  destruct (post_attaches_one_embed
              (link_world test_meme (image_response []) (Return blob_ref))
              linked_record [])
    as (added & Hs & _ & _ & Hsel).
  exists added. split; [exact Hs |]. split; [| reflexivity].
  destruct (Hsel [] eq_refl) as (Himg & _).
  apply (Himg blob_ref); [reflexivity |].
  exists (image_response []), image_bytes. repeat split.
Defined.

(** A record with only [text] is posted without an embed. *)
Example post_text_only_has_no_embed :
  submitted (snd (Bot.post (text_only_record (js "hello")) offline []))
  = [post_record (text_only_record (js "hello")) [] undefined].
Proof. reflexivity. Qed.

(** Nothing answers: both strategies fail and the fixed text is returned. *)
Lemma getPostText_exhausted_witness :
  exists d,
    Unified.getPostText cfg offline []
    = (Return d, [EvFetch (Unified.generate_request cfg);
                  EvFetch (Unified.random_request cfg)])
    /\ text d = js "Check out snagg.meme for fresh memes! " ++ utf16 128293
    /\ d = text_only_record (text d)
    /\ text_only d = true
    /\ no_media d = true.
Proof.
  apply (getPostText_exhausted cfg offline []
           [EvFetch (Unified.generate_request cfg)]);
    reflexivity.
Defined.

Lemma strategies_fail_with_null_witness :
  fst (Unified.fetchGeneratedMeme cfg offline []) = Return None
  /\ fst (Unified.fetchRandomMeme cfg offline []) = Return None.
Proof.
  destruct (strategies_fail_with_null cfg offline []) as (_ & _ & G & R).
  split.
  - apply G. apply gen_network_error with (e := TypeError). reflexivity.
  - apply R. apply rnd_network_error with (e := TypeError). reflexivity.
Defined.

(** A caption header that is not percent-encoded text fails the strategy. *)
Example malformed_caption_header_fails :
  fst (Unified.fetchGeneratedMeme cfg
         (serve [(Unified.generate_request cfg,
                  image_response [(js "X-Meme-Top-Text", js "100%")])]
                (Return blob_ref)) [])
  = Return None.
Proof. reflexivity. Qed.

Lemma generated_text_from_captions_witness :
  exists d d',
    fst (Unified.fetchGeneratedMeme cfg generate_world []) = Return (Some d)
    /\ fst (GenerateOnly.getPostText cfg generate_world []) = Return d'
    /\ text d' = text d
    /\ text d = js "WHEN THE CODE / FINALLY COMPILES".
Proof.
  destruct (generated_text_from_captions cfg generate_world []
              (image_response
                 [ (js "Content-Type", js "image/webp");
                   (js "X-Meme-Top-Text", js "WHEN%20THE%20CODE");
                   (js "X-Meme-Bottom-Text", js "FINALLY%20COMPILES");
                   (js "X-Meme-Template", js "Drake") ])
              image_bytes (js "WHEN THE CODE") (js "FINALLY COMPILES")
              (js "Drake"))
    as (d & d' & E & E' & Et & Hboth & _).
  - repeat split.
  - exists d, d'. repeat split; try assumption.
    apply Hboth; discriminate.
Defined.

(** Only the top caption is present: it is the text, alone. *)
Example top_only_caption :
  Unified.caption_text (js "ONE DOES NOT SIMPLY") []
  = js "ONE DOES NOT SIMPLY".
Proof. reflexivity. Qed.

Lemma random_success_at (m : SnaggMeme) :
  image_url m = val (js "https://cdn.snagg.meme/original.webp") ->
  random_success cfg (random_world m) [] m
    (image_response [(js "Content-Type", js "image/webp")]) image_bytes.
Proof.
  intros E. exists (json_response (listing_of m)), (listing_of m), [].
  unfold after_listing. rewrite E. repeat split.
Defined.

(** C8, as stated, fails: an entry whose title is the empty string and
    that has no tags gets the default text, not its title. *)
Lemma untitled_meme_text_is_not_its_title :
  title untitled_meme = val []
  /\ tags untitled_meme = val []
  /\ random_success cfg (random_world untitled_meme) [] untitled_meme
       (image_response [(js "Content-Type", js "image/webp")]) image_bytes
  /\ exists d,
       fst (Unified.fetchRandomMeme cfg (random_world untitled_meme) [])
       = Return (Some d)
       /\ text d = js "Fresh meme from snagg.meme"
       /\ text d <> spec_random_text (title_of untitled_meme)
                                     (tags_of untitled_meme).
Proof.
  split; [reflexivity |]. split; [reflexivity |].
  split; [apply random_success_at; reflexivity |].
  eexists. split; [reflexivity |]. split; [reflexivity |].
  discriminate.
Qed.

Lemma random_text_title_or_default_witness :
  exists d,
    fst (Unified.fetchRandomMeme cfg (random_world test_meme) [])
    = Return (Some d)
    /\ text d = js "Test Meme" ++ [LF; LF] ++ js "#funny #meme".
Proof.
  destruct (random_text_title_or_default cfg (random_world test_meme) []
              test_meme
              (image_response [(js "Content-Type", js "image/webp")])
              image_bytes (random_success_at test_meme eq_refl))
    as (d & E & Ht & _).
  exists d. split; [exact E | exact Ht].
Defined.

(** Only the first three tags are shown, without their whitespace. *)
Example random_text_three_tags :
  Unified.random_text
    (meme_of (val (js "Distracted Boyfriend"))
       [js "programming"; js "java script"; js "typescript"; js "fourth"])
  = js "Distracted Boyfriend" ++ [LF; LF]
    ++ js "#programming #javascript #typescript".
Proof. reflexivity. Qed.

Lemma image_alt_tier_order_witness :
  (exists d,
      fst (Unified.fetchRandomMeme cfg (random_world test_meme) [])
      = Return (Some d)
      /\ imageAlt d = val (js "A funny meme"))
  /\ (exists d,
        fst (RandomLink.getPostText cfg
               (link_world test_meme not_found (Return blob_ref)) [])
        = Return d
        /\ imageAlt d = val (js "Description")).
Proof.
  split.
  - destruct (proj1 (image_alt_tier_order cfg (random_world test_meme) [])
                test_meme
                (image_response [(js "Content-Type", js "image/webp")])
                image_bytes (random_success_at test_meme eq_refl))
      as (d & E & Hai & _).
    exists d. split; [exact E | exact (Hai eq_refl)].
  - destruct (proj2 (image_alt_tier_order cfg
                       (link_world test_meme not_found (Return blob_ref)) [])
                test_meme)
      as (d & E & _ & Hd & _).
    + exists (json_response (listing_of test_meme)),
             {| data := val {| memes := val [val test_meme] |}; error := null |},
             {| memes := val [val test_meme] |}, [].
      repeat split.
    + exists d. split; [exact E | exact (Hd eq_refl eq_refl)].
Defined.

Lemma link_image_url_prefers_watermark_witness :
  exists d,
    fst (RandomLink.getPostText cfg
           (link_world test_meme not_found (Return blob_ref)) [])
    = Return d
    /\ imageUrl d = val (js "https://cdn.snagg.meme/watermarked.webp").
Proof.
  destruct (link_image_url_prefers_watermark cfg
              (link_world test_meme not_found (Return blob_ref)) []
              test_meme)
    as (d & E & Hw & _).
  - exists (json_response (listing_of test_meme)),
           {| data := val {| memes := val [val test_meme] |}; error := null |},
           {| memes := val [val test_meme] |}, [].
    repeat split.
  - exists d. split; [exact E | exact (Hw eq_refl)].
Defined.

(** The record of the single-request variant has both an image URL and a
    link: the invariant allows a link next to an image. *)
Example linked_record_has_image_and_link :
  is_set (imageUrl linked_record) = true
  /\ is_set (externalUrl linked_record) = true
  /\ externalUrl linked_record
     = val (js "https://snagg.meme/meme/test-meme").
Proof. repeat split. Qed.

Example percent_decode_samples :
  decodeURIComponent (js "WHEN%20THE%20CODE") = Return (js "WHEN THE CODE")
  /\ decodeURIComponent (js "%F0%9F%94%A5") = Return fire
  /\ decodeURIComponent (js "100%") = Throw URIError
  /\ decodeURIComponent (js "%C0%80") = Throw URIError
  /\ decodeURIComponent [] = Return [].
Proof. repeat split. Qed.

End Examples.


(** * Further properties *)

(** ** Absolute URLs *)

Section AbsoluteUrls.

Lemma absolute_url_is_absolute_prefix (u : jsstring) :
  startsWith (absolute_url u) (js "http") = true.
Proof.
  unfold absolute_url. destruct (startsWith u (js "http")) eqn:E;
    [exact E | reflexivity].
Qed.

(** X16.  Whatever it is given, [absolute_url] returns a string that starts
    with "http"; it leaves such a string as it is, so applying it twice is
    applying it once. *)
Theorem absolute_url_is_absolute (u : jsstring) :
  startsWith (absolute_url u) (js "http") = true
  /\ absolute_url (absolute_url u) = absolute_url u
  /\ (startsWith u (js "http") = true -> absolute_url u = u).
Proof.
  pose proof (absolute_url_is_absolute_prefix u) as A.
  split; [exact A |]. split.
  - unfold absolute_url at 1. rewrite A. reflexivity.
  - intros E. unfold absolute_url. rewrite E. reflexivity.
Qed.

(** X17.  A path of the site is resolved against "https://snagg.meme" with
    exactly one slash between host and path, whether or not it is written
    with a leading slash. *)
Theorem absolute_url_leading_slash (p : jsstring) :
  startsWith p (js "http") = false ->
  startsWith p (js "/") = false ->
  absolute_url p = js "https://snagg.meme/" ++ p
  /\ absolute_url (js "/" ++ p) = js "https://snagg.meme/" ++ p.
Proof.
  intros Hh Hs. unfold absolute_url. rewrite Hh, Hs. split; reflexivity.
Qed.

End AbsoluteUrls.

(** ** The first [getPostText] *)

Section FirstVariant.
Import OldSite.

Ltac run_old :=
  cbv beta iota zeta delta [lbind ltry lret lthrow lawait lfetch].




(** X19.  When the meme names an image and the image does not download, the
    first [getPostText] returns the fixed text, whether or not the meme also
    has a page URL: it does not fall back to the link card. *)
Theorem legacy_image_failure_gives_text (n : Net) (h : list Request)
    (d : RandomMeme) :
  legacy_answered n h d ->
  truthy (legacy_image_url d) = true ->
  legacy_image_failure n h (absolute_url (String_ (legacy_image_url d))) ->
  getPostText n h
  = (Return (PostText fallback_text),
     h ++ [get_request api_url;
           get_request (absolute_url (String_ (legacy_image_url d)))]).
Proof.
  intros (a & Ha & Hok & Hj) Ht F. unfold legacy_image_url in *.
  unfold getPostText. run_old. fold (get_request api_url).
  rewrite Ha, Hok. cbn [negb]. rewrite Hj, Ht.
  fold (get_request (absolute_url (String_ (optchain (meme_image d) img_url)))).
  destruct F as [e Hi | ia Hi Hiok | ia e Hi Hiok Hb];
    rewrite Hi; try rewrite Hiok; cbn [negb]; try rewrite Hb;
    rewrite <- app_assoc; reflexivity.
Qed.

(** X20.  When the API answers with a meme, the first [getPostText] embeds
    the image if the meme names one and it downloads: one image, typed
    image/jpeg, with the fixed alt text.  If the meme names no image, it
    returns a link card to the meme's page, its URL made absolute, after a
    single request. *)
Theorem legacy_embed_selection (n : Net) (h : list Request) (d : RandomMeme) :
  legacy_answered n h d ->
  (forall ia buf,
      truthy (legacy_image_url d) = true ->
      n (h ++ [get_request api_url])
        (get_request (absolute_url (String_ (legacy_image_url d))))
      = Return ia ->
      a_ok ia = true ->
      a_arrayBuffer ia = Return buf ->
      fst (getPostText n h)
      = Return (PostRecord_ post_text
                  {| e_type := js "app.bsky.embed.image";
                     e_images :=
                       val [({| blob_parts := buf;
                                blob_type := js "image/jpeg" |},
                             js "Meme from snagg.meme")];
                     e_external := undefined |}))
  /\ (forall u,
        truthy (legacy_image_url d) = false ->
        meme_url d = val u ->
        getPostText n h
        = (Return (PostRecord_ post_text
                     {| e_type := js "app.bsky.embed.external";
                        e_images := undefined;
                        e_external :=
                          val {| uri := absolute_url u;
                                 card_title := js "snagg.meme";
                                 card_description :=
                                   js "A collection of great memes" |} |}),
           h ++ [get_request api_url])).
Proof.
  intros (a & Ha & Hok & Hj). unfold legacy_image_url. split.
  - intros ia buf Ht Hi Hiok Hb.
    unfold getPostText. run_old. fold (get_request api_url).
    rewrite Ha, Hok. cbn [negb]. rewrite Hj, Ht.
    fold (get_request (absolute_url (String_ (optchain (meme_image d) img_url)))).
    rewrite Hi, Hiok. cbn [negb]. rewrite Hb. reflexivity.
  - intros u Ht Hu.
    unfold getPostText. run_old. fold (get_request api_url).
    rewrite Ha, Hok. cbn [negb]. rewrite Hj, Ht, Hu. reflexivity.
Qed.

(** X21.  The scraper never throws and makes one request, for the home
    page.  It returns the fixed text, or the absolute URL of an image of
    the page: the [src], made absolute, of one of its [img] elements.  It
    returns the fixed text whenever no [img] of the page has a [src]. *)
Theorem scrape_outcomes (img_src : jsstring -> list (js_opt jsstring))
    (random_index : nat -> nat) (n : Net) (h : list Request) :
  exists s,
    scrape img_src random_index n h
    = (Return s, h ++ [get_request (js "https://snagg.meme")])
    /\ (s = scraper_fallback_text
        \/ exists a html src,
             n h (get_request (js "https://snagg.meme")) = Return a
             /\ a_text a = Return html
             /\ In (val src) (img_src html)
             /\ src <> []
             /\ s = absolute_url src
             /\ startsWith s (js "http") = true)
    /\ (forall a html,
          n h (get_request (js "https://snagg.meme")) = Return a ->
          a_text a = Return html ->
          Forall (fun x => truthy x = false) (img_src html) ->
          s = scraper_fallback_text).
Proof.
  assert (T : forall l x, In x (truthy_srcs l) -> In (val x) l /\ x <> []).
  { induction l as [| y l IH]; intros x Hx; [destruct Hx |].
    cbn [truthy_srcs] in Hx. destruct y as [ | | [| c t]]; cbn in Hx;
      try (destruct (IH x Hx); split; [right |]; assumption).
    destruct Hx as [<- | Hx].
    - split; [left; reflexivity | discriminate].
    - destruct (IH x Hx). split; [right |]; assumption. }
  assert (E : forall l, Forall (fun x => truthy x = false) l -> truthy_srcs l = []).
  { induction 1 as [| y l Hy _ IH]; [reflexivity |].
    cbn [truthy_srcs]. rewrite Hy. exact IH. }
  unfold scrape. run_old. fold (get_request (js "https://snagg.meme")).
  destruct (n h (get_request (js "https://snagg.meme"))) as [a | e] eqn:Ha;
    [| eexists; split; [reflexivity | split; [left; reflexivity |]];
       intros ? ? Hc; discriminate Hc].
  destruct (a_ok a); cbn [negb];
    [| eexists; split; [reflexivity | split; [left; reflexivity |]];
       reflexivity].
  destruct (a_text a) as [html | e] eqn:Hh;
    [| eexists; split; [reflexivity | split; [left; reflexivity |]];
       reflexivity].
  destruct (truthy_srcs (img_src html)) as [| x l] eqn:Hs;
    [eexists; split; [reflexivity | split; [left; reflexivity |]]; reflexivity |].
  destruct (nth_error (x :: l) (random_index (List.length (x :: l))))
    as [src |] eqn:Hn.
  - eexists. split; [reflexivity |]. split.
    + right. exists a, html, src.
      apply nth_error_In in Hn. rewrite <- Hs in Hn. apply T in Hn.
      destruct Hn as [Hin Hne].
      repeat split; try assumption; try reflexivity.
      apply absolute_url_is_absolute_prefix.
    + intros a0 html0 Ea Eh Hall. inversion Ea; subst a0.
      rewrite Hh in Eh. inversion Eh; subst html0.
      rewrite (E _ Hall) in Hs. discriminate Hs.
  - eexists. split; [reflexivity |]. split; [left; reflexivity |].
    reflexivity.
Qed.

End FirstVariant.

(** ** Configuration *)

Section Configuration.
Import Config.

Lemma optional_string_refuses (v : option jsstring) :
  optional_string v = None <-> v = Some [].
Proof.
  destruct v as [[| c s] |]; cbn; split; intros E;
    try discriminate E; reflexivity.
Qed.

Lemma string_with_default_refuses (d : jsstring) (v : option jsstring) :
  string_with_default d v = None <-> v = Some [].
Proof.
  destruct v as [[| c s] |]; cbn; split; intros E;
    try discriminate E; reflexivity.
Qed.

(** What an accepted optional variable becomes. *)
Lemma optional_string_accepts (v : option jsstring) (x : js_opt jsstring) :
  optional_string v = Some x ->
  x = match v with Some s => val s | None => undefined end
  /\ truthy x = match v with Some _ => true | None => false end.
Proof.
  destruct v as [[| c s] |]; cbn; intros E; inversion E; subst;
    split; reflexivity.
Qed.

Lemma string_with_default_accepts (d : jsstring) (v : option jsstring)
    (x : js_opt jsstring) :
  string_with_default d v = Some x ->
  x = val (match v with Some s => s | None => d end).
Proof.
  destruct v as [[| c s] |]; cbn; intros E; inversion E; reflexivity.
Qed.

(** The fields of a parsed environment are the accepted values. *)
Lemma parse_fields (env : Env) (p : Parsed) :
  parse env = Some p ->
  fields env
  = [ Some (BSKY_HANDLE p); Some (BSKY_PASSWORD p); Some (BSKY_SERVICE p);
      Some (MASTODON_INSTANCE p); Some (MASTODON_ACCESS_TOKEN p);
      Some (THREADS_ACCESS_TOKEN p); Some (THREADS_USER_ID p);
      Some (SNAGG_API_KEY p); Some (SNAGG_API_URL p) ].
Proof.
  unfold parse.
  destruct (fields env) as [| [a |] [| [b |] [| [c |] [| [d |] [| [e |]
    [| [f |] [| [g |] [| [h |] [| [i |] [| ? ?]]]]]]]]]];
    intros E; try discriminate E.
  inversion E. reflexivity.
Qed.

(** X4.  Loading the configuration fails exactly when one of the nine
    variables the schema reads is set to the empty string; a variable that
    is not set is never a reason to fail. *)
Theorem parse_fails_on_empty_variable (env : Env) :
  parse env = None <-> exists v, In v variables /\ env v = Some [].
Proof.
  split.
  - unfold parse, fields. intros E.
    repeat match type of E with
    | context [optional_string (env ?v)] =>
        let F := fresh "F" in
        destruct (optional_string (env v)) eqn:F;
        [| apply optional_string_refuses in F; exists v; split;
           [cbn; tauto | exact F]]
    | context [string_with_default ?d (env ?v)] =>
        let F := fresh "F" in
        destruct (string_with_default d (env v)) eqn:F;
        [| apply string_with_default_refuses in F; exists v; split;
           [cbn; tauto | exact F]]
    end.
    discriminate E.
  - intros (v & Hin & Hv). unfold parse, fields.
    cbn [In variables] in Hin.
    repeat (destruct Hin as [<- | Hin];
            [rewrite Hv; cbn [optional_string string_with_default];
             repeat (match goal with
                     | |- context [optional_string ?x] =>
                         destruct (optional_string x); try reflexivity
                     | |- context [string_with_default ?d ?x] =>
                         destruct (string_with_default d x); try reflexivity
                     end) |]).
    all: try contradiction; reflexivity.
Qed.

(** X5.  When the configuration loads, [bskyAccount] holds the handle and
    the password of the environment if both are set and is [null] if
    either is missing; the Mastodon and Threads settings are likewise
    complete or absent; and the service is the one of the environment or
    "https://bsky.social". *)
Theorem credentials_complete_or_absent (env : Env) (p : Parsed) :
  parse env = Some p ->
  bskyAccount p
  = match env "BSKY_HANDLE"%string, env "BSKY_PASSWORD"%string with
    | Some handle, Some pw =>
        Some {| identifier := handle; password := pw |}
    | _, _ => None
    end
  /\ mastodonConfig p
     = match env "MASTODON_INSTANCE"%string,
             env "MASTODON_ACCESS_TOKEN"%string with
       | Some i, Some t => Some {| instance := i; accessToken := t |}
       | _, _ => None
       end
  /\ threadsConfig p
     = match env "THREADS_ACCESS_TOKEN"%string,
             env "THREADS_USER_ID"%string with
       | Some t, Some u => Some {| threads_accessToken := t; userId := u |}
       | _, _ => None
       end
  /\ bskyService p
     = val match env "BSKY_SERVICE"%string with
           | Some s => s
           | None => js "https://bsky.social"
           end.
Proof.
  intros E. apply parse_fields in E. unfold fields in E.
  injection E as E1 E2 E3 E4 E5 E6 E7 E8 E9.
  apply optional_string_accepts in E1, E2, E4, E5, E6, E7.
  apply string_with_default_accepts in E3.
  destruct E1 as [V1 T1], E2 as [V2 T2], E4 as [V4 T4], E5 as [V5 T5],
           E6 as [V6 T6], E7 as [V7 T7].
  unfold bskyAccount, mastodonConfig, threadsConfig, bskyService.
  rewrite T1, T2, T4, T5, T6, T7, V1, V2, V4, V5, V6, V7, E3.
  repeat split;
    repeat match goal with
    | |- context [env ?v] => destruct (env v)
    end; reflexivity.
Qed.

(** X3.  When the configuration loads, the requests of the fetch
    operations go to the API of the environment, or to
    "https://snagg.meme/api/v1" when none is set, and carry the
    [X-API-Key] header, with the key of the environment, exactly when
    [SNAGG_API_KEY] is set. *)
Theorem requests_follow_environment (env : Env) (p : Parsed) :
  parse env = Some p ->
  let base := match env "SNAGG_API_URL"%string with
              | Some u => u
              | None => js "https://snagg.meme/api/v1"
              end in
  let key := match env "SNAGG_API_KEY"%string with
             | Some k => [(js "X-API-Key", k)]
             | None => []
             end in
  Unified.generate_request (snaggConfig p)
  = {| url := base ++ js "/memes/generate/image";
       method := js "POST";
       req_headers := key |}
  /\ Unified.random_request (snaggConfig p)
     = {| url := base ++ js "/random?count=1";
          method := js "GET";
          req_headers := (js "Content-Type", js "application/json") :: key |}
  /\ RandomLink.random_request (snaggConfig p)
     = {| url := base ++ js "/random";
          method := js "GET";
          req_headers := (js "Content-Type", js "application/json") :: key |}.
Proof.
  intros E base key. apply parse_fields in E. unfold fields in E.
  injection E as _ _ _ _ _ _ _ E8 E9.
  apply optional_string_accepts in E8. destruct E8 as [V8 T8].
  apply string_with_default_accepts in E9.
  unfold Unified.generate_request, Unified.random_request,
    RandomLink.random_request, with_api_key, snaggConfig.
  cbn [apiUrl apiKey]. rewrite T8, V8, E9. subst base key.
  destruct (env "SNAGG_API_KEY"%string), (env "SNAGG_API_URL"%string);
    repeat split.
Qed.

End Configuration.

(** ** More on the fetch operations *)

Section FetchOperations.
Context {RT : Runtime}.
Variable cfg : SnaggConfig.

Lemma caption_text_not_empty (top bottom : jsstring) :
  Unified.caption_text top bottom <> [].
Proof.
  unfold Unified.caption_text.
  destruct top as [| a top], bottom as [| b bottom]; cbn; discriminate.
Qed.

Lemma or_str_not_empty (x : js_opt jsstring) (d : jsstring) :
  d <> [] -> or_str x d <> [].
Proof. destruct x as [ | | [| c s]]; cbn; auto; discriminate. Qed.

Lemma random_text_not_empty (meme : SnaggMeme) :
  Unified.random_text meme <> [].
Proof.
  unfold Unified.random_text.
  assert (N : or_str (title meme) (js "Fresh meme from snagg.meme") <> [])
    by (apply or_str_not_empty; discriminate).
  destruct (map Unified.hashtag (Unified.first_tags meme)); [exact N |].
  destruct (or_str (title meme) (js "Fresh meme from snagg.meme"));
    [contradiction | discriminate].
Qed.

(** What [getPostText] returns: the record of one of the strategies, or
    the fixed text. *)
Lemma unified_result_cases (w : World) (h : History) :
  exists d h',
    Unified.getPostText cfg w h = (Return d, h')
    /\ ((exists r buf top bottom template,
            d = generated_record r buf top bottom template)
        \/ (exists meme ir buf, d = random_record meme ir buf)
        \/ d = text_only_record Unified.fallback_text).
Proof.
  unfold Unified.getPostText. run_js.
  destruct (generate_cases cfg w h)
    as [F | (r & buf & top & bottom & template & S)].
  - rewrite (generate_failure_run cfg w h F). cbv beta iota.
    destruct (random_cases cfg w (h ++ [EvFetch (Unified.generate_request cfg)]))
      as [F' | (meme & ir & buf & S')].
    + destruct (random_failure_run cfg w _ F') as (rest & Er). rewrite Er.
      eexists; eexists. split; [reflexivity | right; right; reflexivity].
    + rewrite (random_success_run cfg w _ _ _ _ S').
      eexists; eexists. split; [reflexivity | right; left; eauto].
  - rewrite (generate_success_run cfg w h _ _ _ _ _ S).
    eexists; eexists. split; [reflexivity | left; eauto 6].
Qed.

(** X1.  Every record a fetch operation returns has a non-empty text:
    this holds for what the two strategies return and for what each of the
    three variants of [getPostText] returns, which they always do. *)
Theorem fetched_text_is_never_empty (w : World) (h : History) :
  (exists o, fst (Unified.fetchGeneratedMeme cfg w h) = Return o
             /\ match o with Some d => text d <> [] | None => True end)
  /\ (exists o, fst (Unified.fetchRandomMeme cfg w h) = Return o
                /\ match o with Some d => text d <> [] | None => True end)
  /\ (exists d, fst (Unified.getPostText cfg w h) = Return d /\ text d <> [])
  /\ (exists d, fst (GenerateOnly.getPostText cfg w h) = Return d
                /\ text d <> [])
  /\ (exists d, fst (RandomLink.getPostText cfg w h) = Return d
                /\ text d <> []).
Proof.
  split; [| split; [| split; [| split]]].
  - destruct (generate_cases cfg w h)
      as [F | (r & buf & top & bottom & template & S)].
    + exists None. rewrite (generate_failure_run cfg w h F). split; exact I || reflexivity.
    + eexists. rewrite (generate_success_run cfg w h _ _ _ _ _ S).
      split; [reflexivity | apply caption_text_not_empty].
  - destruct (random_cases cfg w h) as [F | (meme & ir & buf & S)].
    + destruct (random_failure_run cfg w h F) as (rest & E).
      exists None. rewrite E. split; exact I || reflexivity.
    + eexists. rewrite (random_success_run cfg w h _ _ _ S).
      split; [reflexivity | apply random_text_not_empty].
  - destruct (unified_result_cases w h) as (d & h' & E & C).
    exists d. rewrite E. split; [reflexivity |].
    destruct C as [(r & buf & top & bottom & template & ->)
                  | [(meme & ir & buf & ->) | ->]].
    + apply caption_text_not_empty.
    + apply random_text_not_empty.
    + discriminate.
  - destruct (generate_cases cfg w h)
      as [F | (r & buf & top & bottom & template & S)].
    + eexists. rewrite (generate_only_failure cfg w h F).
      split; [reflexivity | discriminate].
    + eexists. rewrite (generate_only_success cfg w h _ _ _ _ _ S).
      split; [reflexivity | apply caption_text_not_empty].
  - destruct (link_cases cfg w h) as [(meme & P) | E].
    + eexists. rewrite (link_parsed_run cfg w h meme P).
      split; [reflexivity |]. apply or_str_not_empty. discriminate.
    + eexists. rewrite E. split; [reflexivity | discriminate].
Qed.

(** The requests of the random strategy: the listing, then at most the
    image the first entry names as [image_url]. *)
Lemma random_history (w : World) (h : History) :
  exists o h',
    Unified.fetchRandomMeme cfg w h = (Return o, h')
    /\ (h' = h ++ [EvFetch (Unified.random_request cfg)]
        \/ exists meme,
             listed cfg w h (val meme)
             /\ h' = h ++ [EvFetch (Unified.random_request cfg);
                           EvFetch (Unified.image_request (image_url meme))]).
Proof.
  unfold Unified.fetchRandomMeme. run_js.
  destruct (w_fetch w h (Unified.random_request cfg)) as [r | e] eqn:Hf;
    [| eexists; eexists; split; [reflexivity | left; reflexivity]].
  destruct (ok r) eqn:Hok; cbn [negb];
    [| eexists; eexists; split; [reflexivity | left; reflexivity]].
  destruct (resp_json r) as [json | e] eqn:Hj;
    [| eexists; eexists; split; [reflexivity | left; reflexivity]].
  destruct (Unified.listing json) as [ | | [| first rest]] eqn:Hl;
    try (eexists; eexists; split; [reflexivity | left; reflexivity]).
  destruct first as [ | | meme];
    try (eexists; eexists; split; [reflexivity | left; reflexivity]).
  assert (L : listed cfg w h (val meme)) by (exists r, json, rest; auto).
  destruct (w_fetch w (h ++ [EvFetch (Unified.random_request cfg)])
              (Unified.image_request (image_url meme))) as [ir | e];
    [| eexists; eexists; split;
       [rewrite <- app_assoc; reflexivity | right; exists meme; auto]].
  destruct (ok ir); cbn [negb];
    [| eexists; eexists; split;
       [rewrite <- app_assoc; reflexivity | right; exists meme; auto]].
  destruct (resp_arrayBuffer ir);
    eexists; eexists; (split; [rewrite <- app_assoc; reflexivity |]);
    right; exists meme; auto.
Qed.

Lemma generate_history (w : World) (h : History) :
  exists o,
    Unified.fetchGeneratedMeme cfg w h
    = (Return o, h ++ [EvFetch (Unified.generate_request cfg)]).
Proof.
  destruct (generate_cases cfg w h)
    as [F | (r & buf & top & bottom & template & S)].
  - exists None. apply generate_failure_run, F.
  - eexists. apply generate_success_run, S.
Qed.

Lemma listed_inv (w : World) (h : History) (r : Response)
    (json : js_opt SnaggRandomResponse) (first : js_opt SnaggMeme) :
  w_fetch w h (Unified.random_request cfg) = Return r ->
  resp_json r = Return json ->
  listed cfg w h first ->
  ok r = true /\ exists rest, Unified.listing json = val (first :: rest).
Proof.
  intros Hf Hj (r' & json' & rest & Hf' & Hok & Hj' & Hl).
  rewrite Hf in Hf'. inversion Hf'; subst r'.
  rewrite Hj in Hj'. inversion Hj'; subst json'.
  split; [exact Hok | exists rest; exact Hl].
Qed.

(** The requests of the random strategy, exactly: the listing alone when
    it gives no first entry, the listing and the entry's image otherwise. *)
Lemma random_history_exact (w : World) (h : History) :
  exists o h',
    Unified.fetchRandomMeme cfg w h = (Return o, h')
    /\ ((h' = h ++ [EvFetch (Unified.random_request cfg)]
         /\ forall meme, ~ listed cfg w h (val meme))
        \/ exists meme,
             listed cfg w h (val meme)
             /\ h' = h ++ [EvFetch (Unified.random_request cfg);
                           EvFetch (Unified.image_request (image_url meme))]).
Proof.
  unfold Unified.fetchRandomMeme. run_js.
  destruct (w_fetch w h (Unified.random_request cfg)) as [r | e] eqn:Hf.
  2: { eexists; eexists. split; [reflexivity |]. left. split; [reflexivity |].
       intros meme (r' & json' & rest' & Hf' & _). congruence. }
  destruct (ok r) eqn:Hok; cbn [negb].
  2: { eexists; eexists. split; [reflexivity |]. left. split; [reflexivity |].
       intros meme (r' & json' & rest' & Hf' & Hok' & _).
       rewrite Hf in Hf'. inversion Hf'; subst r'. congruence. }
  destruct (resp_json r) as [json | e] eqn:Hj.
  2: { eexists; eexists. split; [reflexivity |]. left. split; [reflexivity |].
       intros meme (r' & json' & rest' & Hf' & _ & Hj' & _).
       rewrite Hf in Hf'. inversion Hf'; subst r'. congruence. }
  assert (N : (forall meme rest,
                  Unified.listing json <> val (val meme :: rest)) ->
              forall meme, ~ listed cfg w h (val meme)).
  { intros C meme L.
    destruct (listed_inv w h r json (val meme) Hf Hj L) as (_ & rest & Hl).
    exact (C meme rest Hl). }
  destruct (Unified.listing json) as [ | | [| [ | | meme] rest]] eqn:Hl;
    try (eexists; eexists; split; [reflexivity |]; left;
         split; [reflexivity | apply N; intros; discriminate]).
  assert (L : listed cfg w h (val meme)) by (exists r, json, rest; auto).
  destruct (w_fetch w (h ++ [EvFetch (Unified.random_request cfg)])
              (Unified.image_request (image_url meme))) as [ir | e];
    [| eexists; eexists; split;
       [rewrite <- app_assoc; reflexivity | right; exists meme; auto]].
  destruct (ok ir); cbn [negb];
    [| eexists; eexists; split;
       [rewrite <- app_assoc; reflexivity | right; exists meme; auto]].
  destruct (resp_arrayBuffer ir);
    eexists; eexists; (split; [rewrite <- app_assoc; reflexivity |]);
    right; exists meme; auto.
Qed.

(** X2.  [getPostText] only fetches, and at most three times.  The
    generation request comes first and is the only one exactly when
    generation returned a record.  The listing request follows exactly
    when generation returned [null].  The third request follows exactly
    when, besides, the listing has a first entry, and it is for the image
    that entry names as [image_url], whether or not it also names a
    watermarked image. *)
Theorem getPostText_request_budget (w : World) (h : History) :
  let gen := EvFetch (Unified.generate_request cfg) in
  let rnd := EvFetch (Unified.random_request cfg) in
  exists added,
    snd (Unified.getPostText cfg w h) = h ++ added
    /\ (added = [gen]
        \/ added = [gen; rnd]
        \/ exists meme,
             listed cfg w (h ++ [gen]) (val meme)
             /\ added = [gen; rnd;
                         EvFetch (Unified.image_request (image_url meme))])
    /\ forallb is_fetch added = true
    /\ (1 <= List.length added <= 3)%nat
    /\ (added = [gen] <->
        exists d, fst (Unified.fetchGeneratedMeme cfg w h) = Return (Some d))
    /\ (added = [gen; rnd] <->
        fst (Unified.fetchGeneratedMeme cfg w h) = Return None
        /\ forall meme, ~ listed cfg w (h ++ [gen]) (val meme))
    /\ ((exists meme,
            listed cfg w (h ++ [gen]) (val meme)
            /\ added = [gen; rnd;
                        EvFetch (Unified.image_request (image_url meme))]) <->
        fst (Unified.fetchGeneratedMeme cfg w h) = Return None
        /\ exists meme, listed cfg w (h ++ [gen]) (val meme)).
Proof.
  intros gen rnd. subst gen rnd.
  unfold Unified.getPostText. run_js.
  destruct (generate_history w h) as (o & Eg). rewrite Eg. cbn [fst].
  destruct o as [d |]; cbv beta iota.
  - exists [EvFetch (Unified.generate_request cfg)].
    split; [reflexivity |]. split; [left; reflexivity |].
    split; [reflexivity |]. split; [cbn; lia |].
    split; [split; [intros _; exists d; reflexivity | reflexivity] |].
    split.
    + split; [intros E; discriminate E | intros (E & _); discriminate E].
    + split; [intros (meme & _ & E); discriminate E
             | intros (E & _); discriminate E].
  - destruct (random_history_exact w
                (h ++ [EvFetch (Unified.generate_request cfg)]))
      as (o & h' & Er & [(-> & No) | (meme & L & ->)]); rewrite Er.
    + exists [EvFetch (Unified.generate_request cfg);
              EvFetch (Unified.random_request cfg)].
      split; [destruct o; cbn [snd]; rewrite <- app_assoc; reflexivity |].
      split; [right; left; reflexivity |].
      split; [reflexivity |]. split; [cbn; lia |].
      split; [split; [intros E; discriminate E
                     | intros (d & E); discriminate E] |].
      split.
      * split; [intros _; split; [reflexivity | exact No] | reflexivity].
      * split; [intros (meme & _ & E); discriminate E
               | intros (_ & meme & L); destruct (No meme L)].
    + exists [EvFetch (Unified.generate_request cfg);
              EvFetch (Unified.random_request cfg);
              EvFetch (Unified.image_request (image_url meme))].
      split; [destruct o; cbn [snd]; rewrite <- app_assoc; reflexivity |].
      split; [right; right; exists meme; split; [exact L | reflexivity] |].
      split; [reflexivity |]. split; [cbn; lia |].
      split; [split; [intros E; discriminate E
                     | intros (d & E); discriminate E] |].
      split.
      * split; [intros E; discriminate E
               | intros (_ & No); destruct (No meme L)].
      * split; [intros _; split; [reflexivity | exists meme; exact L]
               | intros _; exists meme; split; [exact L | reflexivity]].
Qed.

(** X6.  The generate-only [getPostText] never throws and makes exactly
    one request.  It returns the text-only record with the fixed text
    exactly when generation failed (network error, non-2xx answer,
    unreadable body or undecodable caption header). *)
Theorem generate_only_falls_back_on_failure (w : World) (h : History) :
  exists d,
    GenerateOnly.getPostText cfg w h
    = (Return d, h ++ [EvFetch (Unified.generate_request cfg)])
    /\ (d = text_only_record
              (js "Check out snagg.meme for fresh memes! " ++ utf16 128293)
        <-> generate_failure cfg w h).
Proof.
  destruct (generate_cases cfg w h)
    as [F | (r & buf & top & bottom & template & S)].
  - eexists. split; [apply generate_only_failure, F |].
    split; [intros _; exact F | reflexivity].
  - eexists.
    split; [apply (generate_only_success cfg w h r buf top bottom template S) |].
    split; [intros E; discriminate E |].
    intros F. pose proof (generate_failure_run cfg w h F) as E.
    rewrite (generate_success_run cfg w h _ _ _ _ _ S) in E. discriminate E.
Qed.

Lemma link_failure_or_parsed (w : World) (h : History) :
  link_failure cfg w h \/ exists meme, link_parsed cfg w h meme.
Proof.
  destruct (w_fetch w h (RandomLink.random_request cfg)) as [r | e] eqn:Hf;
    [| left; eapply link_network_error; eassumption].
  destruct (ok r) eqn:Hok; [| left; eapply link_not_ok; eassumption].
  destruct (resp_json r) as [json | e] eqn:Hj;
    [| left; eapply link_unparseable; eassumption].
  destruct json as [ | | json];
    try (left; eapply link_null_body; eauto; fail).
  destruct (truthy (error json)) eqn:He;
    [left; eapply link_api_error; eassumption |].
  destruct (data json) as [ | | d] eqn:Hd;
    try (left; eapply link_no_entry; eauto; intros; congruence).
  destruct (memes d) as [ | | [| [ | | meme] rest]] eqn:Hm;
    try (left; eapply link_no_entry; eauto; intros; congruence).
  right. exists meme, r, json, d, rest. repeat split; assumption.
Qed.

Lemma link_failure_excludes_parsed (w : World) (h : History) (meme : SnaggMeme) :
  link_failure cfg w h -> link_parsed cfg w h meme -> False.
Proof.
  intros F (r & json & d & rest & Hf & Hok & Hj & He & Hd & Hm).
  destruct F as [e Hf' | r' Hf' Hok' | r' e Hf' Hok' Hj'
                | r' json' Hf' Hok' Hj' Hn | r' json' Hf' Hok' Hj' He'
                | r' json' Hf' Hok' Hj' He' Hno];
    rewrite Hf in Hf'; inversion Hf'; subst; try congruence.
  - rewrite Hj in Hj'. inversion Hj'; subst. discriminate Hn.
  - rewrite Hj in Hj'. inversion Hj'; subst. eapply Hno; eassumption.
Qed.

(** X7.  The single-request [getPostText] never throws and makes exactly
    one request.  It returns the text-only record with the fixed text
    exactly when [/random] gave it nothing to use: a network error, a
    non-2xx answer, a body that is not JSON or is null, an [error] in the
    body, or no first entry.  Otherwise it returns the record of the first
    entry, which always carries the link to the meme's page. *)
Theorem link_falls_back_on_failure (w : World) (h : History) :
  exists d,
    RandomLink.getPostText cfg w h
    = (Return d, h ++ [EvFetch (RandomLink.random_request cfg)])
    /\ (d = text_only_record (js "Check out snagg.meme for some great memes!")
        <-> link_failure cfg w h)
    /\ (forall meme,
          link_parsed cfg w h meme ->
          d = RandomLink.meme_record meme
          /\ externalUrl d
             = val (js "https://snagg.meme/meme/" ++ String_ (slug meme))).
Proof.
  destruct (link_failure_or_parsed w h) as [F | (meme & P)].
  - destruct (link_cases cfg w h) as [(meme & P) | E];
      [destruct (link_failure_excludes_parsed w h meme F P) |].
    eexists. split; [exact E |]. split.
    + split; [intros _; exact F | reflexivity].
    + intros meme P. destruct (link_failure_excludes_parsed w h meme F P).
  - eexists. split; [apply link_parsed_run, P |]. split.
    + split; [intros E; discriminate E |].
      intros F. destruct (link_failure_excludes_parsed w h meme F P).
    + intros meme' P'.
      pose proof (link_parsed_run cfg w h meme P) as E.
      rewrite (link_parsed_run cfg w h meme' P') in E.
      assert (E' : RandomLink.meme_record meme = RandomLink.meme_record meme')
        by congruence.
      rewrite E'. split; reflexivity.
Qed.

Lemma link_falls_back_text (w : World) (h : History) :
  link_failure cfg w h ->
  RandomLink.getPostText cfg w h
  = (Return (text_only_record RandomLink.fallback_text),
     h ++ [EvFetch (RandomLink.random_request cfg)]).
Proof.
  intros F. destruct (link_cases cfg w h) as [(meme & P) | E]; [| exact E].
  destruct (link_failure_excludes_parsed w h meme F P).
Qed.

End FetchOperations.

(** ** Alt text and hashtags *)

Section Descriptions.
Context {RT : Runtime}.
Variable cfg : SnaggConfig.

(** X8.  A generated record always has an alt text, and it starts with
    "Meme".  It is "Meme" alone exactly when the template name and both
    captions are empty; when all three are present it reads
    Meme - (template) - Top text: "top" - Bottom text: "bottom". *)
Theorem generated_alt_text (w : World) (h : History) (r : Response)
    (buf : ArrayBuffer) (top bottom template : jsstring) :
  generate_success cfg w h r buf top bottom template ->
  exists d alt,
    fst (Unified.fetchGeneratedMeme cfg w h) = Return (Some d)
    /\ imageAlt d = val alt
    /\ startsWith alt (js "Meme") = true
    /\ (alt = js "Meme" <-> template = [] /\ top = [] /\ bottom = [])
    /\ (template <> [] -> top <> [] -> bottom <> [] ->
        alt = js "Meme - (" ++ template ++ js ") - Top text: " ++ [34] ++ top
              ++ [34] ++ js " - Bottom text: " ++ [34] ++ bottom ++ [34]).
Proof.
  intros S. exists (generated_record r buf top bottom template).
  exists (join (js " - ") (Unified.alt_parts template top bottom)).
  rewrite (generate_success_run cfg w h _ _ _ _ _ S).
  split; [reflexivity |]. split; [reflexivity |].
  unfold Unified.alt_parts.
  destruct template as [| a template], top as [| b top],
           bottom as [| c bottom]; cbn [str_truthy];
    (split; [reflexivity |]); split;
    try (split; [intros E; cbn in E; discriminate E
                | intros (E1 & E2 & E3); discriminate]);
    try (intros; congruence).
  - split; [intros _; auto | reflexivity].
  - intros _ _ _. cbn.
    repeat (progress (rewrite <- ?app_assoc; cbn)). reflexivity.
Qed.

Lemma strip_whitespace_all (t : jsstring) :
  Forall (fun c => is_whitespace c = true) t -> strip_whitespace t = [].
Proof.
  induction 1 as [| c t Hc _ IH]; [reflexivity |].
  unfold strip_whitespace. cbn [filter]. rewrite Hc. exact IH.
Qed.

(** X9.  The random strategy makes a hashtag of each of the first three
    tags, and of no other: as many hashtags as tags, up to three.  Each is
    [#] followed by the tag's code units that are not whitespace, so no
    hashtag contains whitespace; a tag made of whitespace only becomes a
    bare [#]. *)
Theorem hashtags_are_clean (meme : SnaggMeme) :
  let hashtags := map Unified.hashtag (Unified.first_tags meme) in
  List.length hashtags = Nat.min 3 (List.length (tags_of meme))
  /\ hashtags = map Unified.hashtag (firstn 3 (tags_of meme))
  /\ Forall (fun tag => exists body,
                 tag = 35 :: body
                 /\ Forall (fun c => is_whitespace c = false) body)
            hashtags
  /\ (forall t, Forall (fun c => is_whitespace c = true) t ->
                Unified.hashtag t = js "#").
Proof.
  intros hashtags. subst hashtags.
  assert (E : Unified.first_tags meme = firstn 3 (tags_of meme)).
  { unfold Unified.first_tags, tags_of. destruct (tags meme); reflexivity. }
  rewrite E. split; [| split; [reflexivity | split]].
  - rewrite length_map. apply length_firstn.
  - apply Forall_forall. intros tag Hin. apply in_map_iff in Hin.
    destruct Hin as (t & <- & _).
    exists (strip_whitespace t). split; [reflexivity |].
    apply strip_whitespace_clean.
  - intros t Ht. unfold Unified.hashtag.
    rewrite (strip_whitespace_all t Ht). reflexivity.
Qed.

End Descriptions.

(** ** More on post assembly *)

Section MoreAssembly.
Context {RT : Runtime}.

Ltac flatten_history :=
  repeat rewrite <- app_assoc; cbn [app].



(** X12.  What [Bot.post] returns is what [agent.post] answered for the one
    record it was handed: the URI of the post, or its rejection, thrown on
    to the caller (by then an image has already been uploaded).  When no
    record was handed over, [Bot.post] has thrown. *)
Theorem post_returns_agent_answer (d : PostData) (w : World) (h : History) :
  exists added,
    snd (Bot.post d w h) = h ++ added
    /\ ((exists before r,
            added = before ++ [EvPost r]
            /\ submitted before = []
            /\ fst (Bot.post d w h) = w_post w (h ++ before) r)
        \/ (submitted added = []
            /\ exists e, fst (Bot.post d w h) = Throw e)).
Proof.
  unfold Bot.post. run_js.
  destruct (w_detectFacets w h (text d)) as [facets | e];
    [| eexists; split; [reflexivity | right; split; [reflexivity | eexists; reflexivity]]].
  destruct (truthy (imageUrl d)) eqn:Hu.
  - destruct (w_fetch w _ _) as [ir | e];
      [| eexists; split; [cbn [snd]; flatten_history; reflexivity |];
         right; split; [reflexivity | eexists; reflexivity]].
    destruct (ok ir); cbn [negb];
      [| eexists; split; [cbn [snd]; flatten_history; reflexivity |];
         right; split; [reflexivity | eexists; reflexivity]].
    destruct (resp_arrayBuffer ir) as [buf | e];
      [| eexists; split; [cbn [snd]; flatten_history; reflexivity |];
         right; split; [reflexivity | eexists; reflexivity]].
    destruct (w_uploadBlob w _ _) as [uploaded | e] eqn:Hup;
      [| eexists; split; [cbn [snd]; flatten_history; reflexivity |];
         right; split; [reflexivity | eexists; reflexivity]].
    match goal with
    | |- context [w_post w ?hh ?r] =>
        exists [EvDetectFacets (text d);
                EvFetch (Bot.image_request (imageUrl d));
                EvUploadBlob
                  {| blob_parts := buf;
                     blob_type := or_str (headers_get ir (js "content-type"))
                                         (js "image/jpeg") |};
                EvPost r];
        split;
        [destruct (w_post w hh r); cbn [snd]; flatten_history; reflexivity |];
        left;
        exists [EvDetectFacets (text d);
                EvFetch (Bot.image_request (imageUrl d));
                EvUploadBlob
                  {| blob_parts := buf;
                     blob_type := or_str (headers_get ir (js "content-type"))
                                         (js "image/jpeg") |}], r;
        split; [reflexivity | split; [reflexivity |]];
        flatten_history; destruct (w_post w _ r); reflexivity
    end.
  - destruct (truthy (externalUrl d));
      match goal with
      | |- context [w_post w ?hh ?r] =>
          exists [EvDetectFacets (text d); EvPost r];
          split;
          [destruct (w_post w hh r); cbn [snd]; flatten_history; reflexivity |];
          left; exists [EvDetectFacets (text d)], r;
          split; [reflexivity | split; [reflexivity |]];
          destruct (w_post w hh r); reflexivity
      end.
Qed.

End MoreAssembly.

(** ** Runs *)

Section Runs.
Context {RT : Runtime}.
Import Run.

Ltac run_session :=
  cbv beta iota delta [rbind rtry rret rthrow lift login].


(** X14.  A dry run posts nothing: once logged in, [Bot.run] with
    [dryRun] set returns the text of the record [getPostText] gave, and the
    only effects are those of [getPostText].  Without options, or with
    [dryRun] missing or false, the run is live and ends as [Bot.post]
    does. *)
Theorem dry_run_posts_nothing (agent : Agent) (s : Session)
    (account : Config.LoginOpts) (getPostText : M PostData)
    (botOptions : option BotOptions) (d : PostData) (h1 : History) :
  a_login agent s account = Return tt ->
  getPostText (a_world agent) (history s) = (Return d, h1) ->
  (dry botOptions = true <->
   exists o, botOptions = Some o /\ dryRun o = val true)
  /\ (dry botOptions = true ->
      run (Some account) getPostText botOptions agent s
      = (Return (text d), logged s account h1))
  /\ (dry botOptions = false ->
      run (Some account) getPostText botOptions agent s
      = (fst (Bot.post d (a_world agent) h1),
         logged s account (snd (Bot.post d (a_world agent) h1)))).
Proof.
  intros L G. split; [| split].
  - unfold dry. split.
    + destruct botOptions as [o |]; [| discriminate].
      destruct (dryRun o) as [ | | []] eqn:E; try discriminate.
      intros _. exists o. split; [reflexivity | exact E].
    + intros (o & -> & ->). reflexivity.
  - intros D. unfold run, logged. run_session. rewrite L. cbn [logins history].
    rewrite G, D. reflexivity.
  - intros D. unfold run, logged. run_session. rewrite L. cbn [logins history].
    rewrite G, D. cbn [negb logins history].
    destruct (Bot.post d (a_world agent) h1). reflexivity.
Qed.

Lemma unified_getPostText_returns (cfg : SnaggConfig) (w : World)
    (h : History) :
  exists d h', Unified.getPostText cfg w h = (Return d, h').
Proof.
  destruct (unified_result_cases cfg w h) as (d & h' & E & _). eauto.
Qed.

Lemma fetchRandomMeme_returns (cfg : SnaggConfig) (w : World) (h : History) :
  exists o h', Unified.fetchRandomMeme cfg w h = (Return o, h').
Proof.
  destruct (random_history cfg w h) as (o & h' & E & _). eauto.
Qed.

(** X15.  Once logged in, the entry script with the last resort never
    ends in an exception: it completes or exits with code 1.  Its
    [getPostText] cannot throw, so the last resort runs exactly when
    posting the first record throws.  It then fetches a random meme and
    posts it; the script completes if that post succeeds, and exits with
    code 1 if the fetch returns [null] or the second post throws too. *)
Theorem main_with_fallback_never_crashes (cfg : SnaggConfig)
    (agent : Agent) (s : Session) (account : Config.LoginOpts)
    (post : PostData -> M jsstring) :
  a_login agent s account = Return tt ->
  let w := a_world agent in
  let result := main_with_fallback cfg (Some account) post agent s in
  (exists ending s',
      result = (Return ending, s')
      /\ (ending = Completed \/ ending = Exited 1)
      /\ logins s' = logins s ++ [account])
  /\ exists d h1,
       Unified.getPostText cfg w (history s) = (Return d, h1)
       /\ (forall u h2,
             post d w h1 = (Return u, h2) ->
             result = (Return Completed, logged s account h2))
       /\ (forall e h2,
             post d w h1 = (Throw e, h2) ->
             exists fallback h3,
               Unified.fetchRandomMeme cfg w h2 = (Return fallback, h3)
               /\ match fallback with
                  | None => result = (Return (Exited 1), logged s account h3)
                  | Some fb =>
                      (forall u h4,
                          post fb w h3 = (Return u, h4) ->
                          result = (Return Completed, logged s account h4))
                      /\ (forall e' h4,
                            post fb w h3 = (Throw e', h4) ->
                            result
                            = (Return (Exited 1), logged s account h4))
                  end).
Proof.
  intros L w result. subst w result.
  destruct (unified_getPostText_returns cfg (a_world agent) (history s))
    as (d & h1 & G).
  assert (P1 : forall u h2,
    post d (a_world agent) h1 = (Return u, h2) ->
    main_with_fallback cfg (Some account) post agent s
    = (Return Completed, logged s account h2)).
  { intros u h2 P. unfold main_with_fallback, logged. run_session.
    rewrite L. cbn [logins history]. rewrite G. cbn [logins history].
    rewrite P. reflexivity. }
  assert (P2 : forall e h2,
    post d (a_world agent) h1 = (Throw e, h2) ->
    exists fallback h3,
      Unified.fetchRandomMeme cfg (a_world agent) h2 = (Return fallback, h3)
      /\ match fallback with
         | None =>
             main_with_fallback cfg (Some account) post agent s
             = (Return (Exited 1), logged s account h3)
         | Some fb =>
             (forall u h4,
                 post fb (a_world agent) h3 = (Return u, h4) ->
                 main_with_fallback cfg (Some account) post agent s
                 = (Return Completed, logged s account h4))
             /\ (forall e' h4,
                   post fb (a_world agent) h3 = (Throw e', h4) ->
                   main_with_fallback cfg (Some account) post agent s
                   = (Return (Exited 1), logged s account h4))
         end).
  { intros e h2 P.
    destruct (fetchRandomMeme_returns cfg (a_world agent) h2)
      as (fallback & h3 & F).
    exists fallback, h3. split; [exact F |].
    destruct fallback as [fb |].
    - split; intros x h4 P';
        unfold main_with_fallback, logged; run_session;
        rewrite L; cbn [logins history]; rewrite G; cbn [logins history];
        rewrite P; cbn [logins history]; rewrite F; cbn [logins history];
        rewrite P'; reflexivity.
    - unfold main_with_fallback, logged. run_session.
      rewrite L. cbn [logins history]. rewrite G. cbn [logins history].
      rewrite P. cbn [logins history]. rewrite F. reflexivity. }
  split.
  - destruct (post d (a_world agent) h1) as [[u | e] h2] eqn:P.
    + rewrite (P1 u h2 eq_refl). eexists; eexists.
      split; [reflexivity | split; [left; reflexivity | reflexivity]].
    + destruct (P2 e h2 eq_refl) as (fallback & h3 & F & C).
      destruct fallback as [fb |].
      * destruct C as [C1 C2].
        destruct (post fb (a_world agent) h3) as [[u | e'] h4] eqn:P'.
        -- rewrite (C1 u h4 eq_refl). eexists; eexists.
           split; [reflexivity | split; [left; reflexivity | reflexivity]].
        -- rewrite (C2 e' h4 eq_refl). eexists; eexists.
           split; [reflexivity | split; [right; reflexivity | reflexivity]].
      * rewrite C. eexists; eexists.
        split; [reflexivity | split; [right; reflexivity | reflexivity]].
  - exists d, h1. split; [exact G |]. split; [exact P1 | exact P2].
Qed.

(** X22.  The entry script with the single-request [getPostText] and
    [Bot.post]: when [/random] gives nothing to use, the script still posts,
    the fixed text without an embed, after exactly one request and without
    downloading or uploading anything. *)
Theorem main_posts_fixed_text_when_api_fails (cfg : SnaggConfig)
    (agent : Agent) (s : Session) (account : Config.LoginOpts)
    (facets : Facets) :
  let w := a_world agent in
  let fixed := js "Check out snagg.meme for some great memes!" in
  let request := EvFetch (RandomLink.random_request cfg) in
  let record := {| record_text := fixed; record_facets := facets;
                   record_embed := undefined |} in
  a_login agent s account = Return tt ->
  link_failure cfg w (history s) ->
  w_detectFacets w (history s ++ [request]) fixed = Return facets ->
  snd (main (Some account) (RandomLink.getPostText cfg) Bot.post agent s)
  = logged s account
      (history s ++ [request; EvDetectFacets fixed; EvPost record])
  /\ (forall u,
        w_post w (history s ++ [request; EvDetectFacets fixed]) record
        = Return u ->
        fst (main (Some account) (RandomLink.getPostText cfg) Bot.post agent s)
        = Return Completed).
Proof.
  intros w fixed request record L F D. subst w fixed request record.
  pose proof (link_falls_back_text cfg (a_world agent) (history s) F) as G.
  assert (P : Bot.post (text_only_record RandomLink.fallback_text)
                (a_world agent)
                (history s ++ [EvFetch (RandomLink.random_request cfg)])
              = (w_post (a_world agent)
                   (history s ++ [EvFetch (RandomLink.random_request cfg);
                                  EvDetectFacets RandomLink.fallback_text])
                   {| record_text := RandomLink.fallback_text;
                      record_facets := facets;
                      record_embed := undefined |},
                 history s ++ [EvFetch (RandomLink.random_request cfg);
                               EvDetectFacets RandomLink.fallback_text;
                               EvPost {| record_text := RandomLink.fallback_text;
                                         record_facets := facets;
                                         record_embed := undefined |}])).
  { pose proof (post_run_no_image (a_world agent)
                  (text_only_record RandomLink.fallback_text)
                  (history s ++ [EvFetch (RandomLink.random_request cfg)])
                  facets D eq_refl) as E.
    cbv zeta in E. cbn [externalUrl text_only_record truthy text] in E.
    rewrite E. unfold post_record. cbn [text text_only_record].
    rewrite <- !app_assoc. reflexivity. }
  unfold main, logged. run_session. rewrite L. cbn [logins history].
  rewrite G. cbn [logins history]. rewrite P. split.
  - destruct (w_post _ _ _); reflexivity.
  - intros u U. unfold RandomLink.fallback_text in *. rewrite U. reflexivity.
Qed.

End Runs.

(** ** The further properties at sample worlds *)

Section MoreExamples.
Import Samples MoreSamples.

(** C9, as stated, fails in the single-request variant: an entry without
    alt text, description or title gets the literal, not its title. *)
Lemma bare_meme_alt_is_not_its_title :
  truthy (alt_text bare_meme) = false
  /\ truthy (description bare_meme) = false
  /\ title bare_meme = val []
  /\ link_parsed cfg (link_world bare_meme not_found (Return blob_ref)) []
       bare_meme
  /\ exists d,
       fst (RandomLink.getPostText cfg
              (link_world bare_meme not_found (Return blob_ref)) [])
       = Return d
       /\ imageAlt d = val (js "Meme from snagg.meme")
       /\ imageAlt d <> title bare_meme.
Proof.
  split; [reflexivity |]. split; [reflexivity |]. split; [reflexivity |].
  split.
  - exists (json_response (listing_of bare_meme)),
           {| data := val {| memes := val [val bare_meme] |}; error := null |},
           {| memes := val [val bare_meme] |}, [].
    repeat split.
  - eexists. split; [reflexivity |]. split; [reflexivity | discriminate].
Qed.

Lemma absolute_url_leading_slash_witness :
  absolute_url (js "img/42.jpg") = js "https://snagg.meme/img/42.jpg"
  /\ absolute_url (js "/img/42.jpg") = js "https://snagg.meme/img/42.jpg".
Proof.
  apply (absolute_url_leading_slash (js "img/42.jpg")); reflexivity.
Defined.

(** A string that starts with "http" is taken for a URL, whatever follows. *)
Example absolute_url_keeps_http_prefix :
  absolute_url (js "httpfoo.png") = js "httpfoo.png"
  /\ absolute_url [] = js "https://snagg.meme/".
Proof. split; reflexivity. Qed.

Lemma legacy_answered_at (d : OldSite.RandomMeme) (other : OldSite.Answer) :
  legacy_answered (old_net d other) [] d.
Proof. exists (old_answer d). repeat split. Defined.

Lemma legacy_image_failure_gives_text_witness :
  OldSite.getPostText (old_net old_meme old_not_found) []
  = (Return (OldSite.PostText
               (js "Check out snagg.meme for some great memes! "
                ++ utf16 127881)),
     [get_request OldSite.api_url;
      get_request (js "https://snagg.meme/img/42.jpg")]).
Proof.
  apply (legacy_image_failure_gives_text (old_net old_meme old_not_found) []
           old_meme (legacy_answered_at old_meme old_not_found)).
  - reflexivity.
  - apply legacy_image_not_ok with (ia := old_not_found); reflexivity.
Defined.

Lemma legacy_embed_selection_witness :
  OldSite.getPostText (old_net old_meme_without_image old_not_found) []
  = (Return (OldSite.PostRecord_ OldSite.post_text
               (OldSite.external_embed (js "https://snagg.meme/meme/42"))),
     [get_request OldSite.api_url])
  /\ fst (OldSite.getPostText (old_net old_meme old_image) [])
     = Return (OldSite.PostRecord_ OldSite.post_text
                 (OldSite.image_embed image_bytes)).
Proof.
  split.
  - apply (proj2 (legacy_embed_selection
                    (old_net old_meme_without_image old_not_found) []
                    old_meme_without_image
                    (legacy_answered_at old_meme_without_image old_not_found))
             (js "/meme/42"));
      reflexivity.
  - apply (proj1 (legacy_embed_selection (old_net old_meme old_image) []
                    old_meme (legacy_answered_at old_meme old_image))
             old_image image_bytes);
      reflexivity.
Defined.

(** The scraper on a page with two images, the second one picked. *)
Example scrape_picks_an_image :
  fst (OldSite.scrape
         (fun _ => [undefined; val (js "/a.png"); val []; val (js "b.png")])
         (fun _ => 1%nat)
         (fun _ _ => Return old_image) [])
  = Return (js "https://snagg.meme/b.png").
Proof. reflexivity. Qed.

Lemma credentials_complete_or_absent_witness :
  Config.parse test_env = Some test_parsed
  /\ Config.bskyAccount test_parsed = Some account
  /\ Config.mastodonConfig test_parsed = None.
Proof.
  split; [reflexivity |].
  destruct (credentials_complete_or_absent test_env test_parsed eq_refl)
    as (A & M & _).
  split; [exact A | exact M].
Defined.

(** A handle without a password gives no account; an empty password stops
    the program. *)
Example half_configured_account :
  option_map Config.bskyAccount
    (Config.parse (env_of [("BSKY_HANDLE"%string, js "bot.bsky.social")]))
  = Some None
  /\ Config.parse (env_of [("BSKY_HANDLE"%string, js "bot.bsky.social");
                           ("BSKY_PASSWORD"%string, [])])
     = None.
Proof. split; reflexivity. Qed.

Lemma requests_follow_environment_witness :
  Unified.generate_request (Config.snaggConfig test_parsed)
  = {| url := js "https://snagg.meme/api/v1/memes/generate/image";
       method := js "POST";
       req_headers := [(js "X-API-Key", js "test-key")] |}.
Proof.
  exact (proj1 (requests_follow_environment test_env test_parsed eq_refl)).
Defined.

Lemma generated_alt_text_witness :
  exists d alt,
    fst (Unified.fetchGeneratedMeme cfg generate_world []) = Return (Some d)
    /\ imageAlt d = val alt
    /\ alt = js "Meme - (Drake) - Top text: " ++ [34] ++ js "WHEN THE CODE"
             ++ [34] ++ js " - Bottom text: " ++ [34]
             ++ js "FINALLY COMPILES" ++ [34].
Proof.
  destruct (generated_alt_text cfg generate_world []
              (image_response
                 [ (js "Content-Type", js "image/webp");
                   (js "X-Meme-Top-Text", js "WHEN%20THE%20CODE");
                   (js "X-Meme-Bottom-Text", js "FINALLY%20COMPILES");
                   (js "X-Meme-Template", js "Drake") ])
              image_bytes (js "WHEN THE CODE") (js "FINALLY COMPILES")
              (js "Drake"))
    as (d & alt & E & Ea & _ & _ & Hall).
  - repeat split.
  - exists d, alt. split; [exact E |]. split; [exact Ea |].
    apply Hall; discriminate.
Defined.


Lemma dry_run_posts_nothing_witness :
  Run.run (Some account) (Unified.getPostText cfg)
    (Some {| Run.dryRun := val true |}) (agent_of offline (Return tt)) fresh
  = (Return (js "Check out snagg.meme for fresh memes! " ++ utf16 128293),
     {| Run.logins := [account];
        Run.history := [EvFetch (Unified.generate_request cfg);
                        EvFetch (Unified.random_request cfg)] |}).
Proof.
  apply (proj1 (proj2 (dry_run_posts_nothing (agent_of offline (Return tt))
                         fresh account (Unified.getPostText cfg)
                         (Some {| Run.dryRun := val true |})
                         (text_only_record Unified.fallback_text)
                         [EvFetch (Unified.generate_request cfg);
                          EvFetch (Unified.random_request cfg)]
                         eq_refl eq_refl)));
    reflexivity.
Defined.

Lemma main_with_fallback_never_crashes_witness :
  exists ending s',
    Run.main_with_fallback cfg (Some account) Bot.post
      (agent_of rejecting (Return tt)) fresh
    = (Return ending, s')
    /\ (ending = Run.Completed \/ ending = Run.Exited 1)
    /\ Run.logins s' = [account].
Proof.
  exact (proj1 (main_with_fallback_never_crashes cfg
                  (agent_of rejecting (Return tt)) fresh account Bot.post
                  eq_refl)).
Defined.

(** The agent refuses every post and nothing answers: exit code 1. *)
Example main_with_fallback_exits :
  fst (Run.main_with_fallback cfg (Some account) Bot.post
         (agent_of rejecting (Return tt)) fresh)
  = Return (Run.Exited 1).
Proof. reflexivity. Qed.

Lemma main_posts_fixed_text_when_api_fails_witness :
  snd (Run.main (Some account) (RandomLink.getPostText cfg) Bot.post
         (agent_of offline (Return tt)) fresh)
  = {| Run.logins := [account];
       Run.history :=
         [EvFetch (RandomLink.random_request cfg);
          EvDetectFacets (js "Check out snagg.meme for some great memes!");
          EvPost {| record_text :=
                      js "Check out snagg.meme for some great memes!";
                    record_facets := [];
                    record_embed := undefined |}] |}.
Proof.
  apply (proj1 (main_posts_fixed_text_when_api_fails cfg
                  (agent_of offline (Return tt)) fresh account []
                  eq_refl
                  (link_network_error cfg offline [] TypeError eq_refl)
                  eq_refl)).
Defined.

End MoreExamples.
